(** * Local_socks5: the proxy probe engine of [ping_proxies.py]

    A shallow embedding of [test_single_proxy_attempt], [test_proxy] and the
    collection / aggregation part of [main], with the network, the clock and
    the worker pool made explicit:

    - the network is an oracle [net] that answers the k-th [requests.get]
      call of a task with a duration and either a response or an exception;
    - [time.time()] reads a clock that [requests.get] and [time.sleep]
      advance (exact rationals stand for the floats of the source);
    - Python exceptions are values carrying their class and the rest of its
      method resolution order, so that [except C] is a membership test;
    - a task of the thread pool is a run of [test_proxy] in a world of its
      own, and [as_completed] is any permutation of the submitted tasks. *)

From Stdlib Require Import String Ascii List ZArith QArith Qround Qabs Bool Arith Lia.
From Stdlib Require Import Permutation Sorted DecimalString.
From Stdlib Require DecimalZ DecimalPos.
From Equations Require Import Equations.
Import ListNotations.

Close Scope Q_scope.
Open Scope string_scope.

(** ** Python exceptions *)

(** A class is known by its module and its [__name__]. *)
Record pyclass := PyClass { cls_module : string; cls_name : string }.

Definition pyclass_eqb (c d : pyclass) : bool :=
  String.eqb (cls_module c) (cls_module d) && String.eqb (cls_name c) (cls_name d).

(** An exception instance: [type(e)], the remainder of
    [type(e).__mro__], and [str(e)]. *)
Record exn := Exn { exn_type : pyclass; exn_bases : list pyclass; exn_str : string }.

Definition mro (e : exn) : list pyclass := exn_type e :: exn_bases e.

Definition isinstance (e : exn) (c : pyclass) : bool :=
  existsb (pyclass_eqb c) (mro e).

Definition type_name (e : exn) : string := cls_name (exn_type e).

Module Classes.
Definition object_ := PyClass "builtins" "object".
Definition BaseException := PyClass "builtins" "BaseException".
Definition Exception := PyClass "builtins" "Exception".
Definition KeyboardInterrupt := PyClass "builtins" "KeyboardInterrupt".
Definition LookupError := PyClass "builtins" "LookupError".
Definition KeyError := PyClass "builtins" "KeyError".
Definition ValueError := PyClass "builtins" "ValueError".
Definition OSError := PyClass "builtins" "OSError".
(* requests.exceptions *)
Definition RequestException := PyClass "requests.exceptions" "RequestException".
Definition Timeout := PyClass "requests.exceptions" "Timeout".
Definition ConnectionError := PyClass "requests.exceptions" "ConnectionError".
Definition ProxyError := PyClass "requests.exceptions" "ProxyError".
Definition SSLError := PyClass "requests.exceptions" "SSLError".
Definition ConnectTimeout := PyClass "requests.exceptions" "ConnectTimeout".
Definition ReadTimeout := PyClass "requests.exceptions" "ReadTimeout".
End Classes.

Module Raised.
Import Classes.
Definition builtin_tail := [Exception; BaseException; object_].
Definition request_tail := RequestException :: OSError :: builtin_tail.

Definition key_error (key : string) :=
  Exn KeyError (LookupError :: builtin_tail) ("'" ++ key ++ "'").
Definition value_error := Exn ValueError builtin_tail.
Definition keyboard_interrupt := Exn KeyboardInterrupt [BaseException; object_] EmptyString.
Definition read_timeout := Exn ReadTimeout (Timeout :: request_tail).
Definition connect_timeout :=
  Exn ConnectTimeout (ConnectionError :: Timeout :: request_tail).
Definition proxy_error := Exn ProxyError (ConnectionError :: request_tail).
Definition ssl_error := Exn SSLError (ConnectionError :: request_tail).
Definition connection_error := Exn ConnectionError request_tail.
End Raised.

(** ** Results of effectful code *)

Inductive outcome (A : Type) : Type :=
| Ok (a : A)
| Raise (e : exn).
Arguments Ok {A} a.
Arguments Raise {A} e.

(** ** Python strings and numbers *)

(** [str(n)] and [f"{n}"] for an [int]. *)
Definition str_int (z : Z) : string := NilZero.string_of_int (Z.to_int z).

Definition str_nat (n : nat) : string := str_int (Z.of_nat n).

(** Rounding to the nearest integer, ties to even, as the correctly rounded
    [%.2f] conversion does on the exact value of a float. *)
Definition round_half_even (x : Q) : Z :=
  let f := Qfloor x in
  match Qcompare (x - inject_Z f) (1 # 2) with
  | Lt => f
  | Gt => (f + 1)%Z
  | Eq => if Z.even f then f else (f + 1)%Z
  end.

Definition two_digits (n : Z) : string :=
  str_int (n / 10) ++ str_int (n mod 10).

(** [f"{x:.2f}"]: sign, integer part, a dot and exactly two decimals. *)
Definition format_2f (x : Q) : string :=
  let n := round_half_even (Qabs x * 100)%Q in
  (match Qcompare x 0 with Lt => "-" | _ => EmptyString end)
    ++ str_int (n / 100) ++ "." ++ two_digits (n mod 100).

(** [s.split(sep)[0]]: the part of [s] before the first occurrence of
    [sep], all of [s] when there is none. *)
Fixpoint split_head (sep s : string) : string :=
  if String.prefix sep s then EmptyString
  else match s with
       | EmptyString => EmptyString
       | String c s' => String c (split_head sep s')
       end.

(** [sep in s]. *)
Fixpoint contains (sep s : string) : bool :=
  String.prefix sep s ||
  match s with
  | EmptyString => false
  | String _ s' => contains sep s'
  end.

(** [d.get(key, default)] on a JSON object with string members. *)
Definition json_object := list (string * string).

Fixpoint dict_get {A : Type} (d : list (string * A)) (key : string) (default : A) : A :=
  match d with
  | [] => default
  | (k, v) :: d' => if String.eqb k key then v else dict_get d' key default
  end.

Fixpoint dict_find {A : Type} (d : list (string * A)) (key : string) : option A :=
  match d with
  | [] => None
  | (k, v) :: d' => if String.eqb k key then Some v else dict_find d' key
  end.

(** [d[key] = v] on an insertion-ordered dict: an existing key keeps its
    place, a new key goes last. *)
Fixpoint dict_set {A : Type} (d : list (string * A)) (key : string) (v : A)
  : list (string * A) :=
  match d with
  | [] => [(key, v)]
  | (k, x) :: d' =>
      if String.eqb k key then (k, v) :: d' else (k, x) :: dict_set d' key v
  end.

(** ** The world of one probe task *)

Record request := Request {
  url : string;
  proxies : option string;   (* the [proxies=] mapping, both schemes alike *)
  timeout : Z
}.

Record response := Response {
  status_code : Z;
  json : outcome json_object          (* what [response.json()] does *)
}.

(** What the network does with one [requests.get] call. *)
Record reply := Reply {
  duration : Q;                       (* seconds the call takes *)
  answer : outcome response
}.

(** The k-th [requests.get] call of a task and its arguments decide the
    reply. *)
Definition network := nat -> request -> reply.

Record world := World {
  clock : Q;                 (* what [time.time()] reads *)
  requests_sent : nat;       (* [requests.get] calls so far *)
  attempts : nat;            (* calls of [test_single_proxy_attempt] so far *)
  stdout : list string
}.

Definition M (A : Type) : Type := world -> outcome A * world.

Definition ret {A} (a : A) : M A := fun w => (Ok a, w).

Definition raise {A} (e : exn) : M A := fun w => (Raise e, w).

Definition bind {A B} (m : M A) (k : A -> M B) : M B :=
  fun w =>
    match m w with
    | (Ok a, w') => k a w'
    | (Raise e, w') => (Raise e, w')
    end.

(** [try: body  except ...: handler]; a handler re-raises what no clause
    matches. *)
Definition try_except {A} (body : M A) (handler : exn -> M A) : M A :=
  fun w =>
    match body w with
    | (Ok a, w') => (Ok a, w')
    | (Raise e, w') => handler e w'
    end.

Declare Scope py_scope.
Delimit Scope py_scope with py.
Notation "x <- m ;; k" := (bind m (fun x => k))
  (at level 61, m at next level, right associativity) : py_scope.
Notation "m ;; k" := (bind m (fun _ => k))
  (at level 61, right associativity) : py_scope.
Open Scope py_scope.

Definition time_time : M Q := fun w => (Ok (clock w), w).

Definition time_sleep (seconds : Q) : M unit :=
  fun w => (Ok tt, World (clock w + seconds)%Q (requests_sent w) (attempts w) (stdout w)).

Definition print (line : string) : M unit :=
  fun w => (Ok tt, World (clock w) (requests_sent w) (attempts w) (stdout w ++ [line])).

Definition requests_get (net : network) (u : string) (via : option string) (t : Z)
  : M response :=
  fun w =>
    let r := net (requests_sent w) (Request u via t) in
    (answer r,
     World (clock w + duration r)%Q (S (requests_sent w)) (attempts w) (stdout w)).

(** Entering [test_single_proxy_attempt] is counted. *)
Definition enter_attempt : M unit :=
  fun w => (Ok tt, World (clock w) (requests_sent w) (S (attempts w)) (stdout w)).

(** [d[key]]: a missing key raises [KeyError]. *)
Definition getitem {A} (key : string) (entry : option A) : M A :=
  match entry with
  | Some v => ret v
  | None => raise (Raised.key_error key)
  end.

Definition lift_outcome {A} (o : outcome A) : M A :=
  match o with
  | Ok a => ret a
  | Raise e => raise e
  end.

(** ** The data model *)

Definition TIMEOUT : Z := 8.
Definition MAX_RETRIES : nat := 3.

(** One entry of [config['listeners']]: a dict whose keys may be missing.
    The generator writes [name] and [proxy] as strings and [port] as an
    integer. *)
Record proxy_info := ProxyInfo {
  listener_name : option string;     (* proxy_info["name"] *)
  listener_port : option Z;          (* proxy_info["port"] *)
  listener_proxy : option string     (* proxy_info["proxy"] *)
}.

(** The result dict; every key is always present. *)
Record record := Result {
  r_name : string;        (* "名称" *)
  r_proxy : string;       (* "代理名" *)
  r_port : Z;             (* "端口" *)
  r_url : string;         (* "代理地址" *)
  r_status : string;      (* "状态" *)
  r_ip : string;          (* "IP地址" *)
  r_country : string;     (* "国家/地区" *)
  r_city : string;        (* "城市" *)
  r_org : string;         (* "运营商" *)
  r_latency : string      (* "延迟(ms)" *)
}.

(** [result["状态"] = s] *)
Definition set_status (r : record) (s : string) : record :=
  Result (r_name r) (r_proxy r) (r_port r) (r_url r) s
         (r_ip r) (r_country r) (r_city r) (r_org r) (r_latency r).

(** [result.update({"状态": ..., "IP地址": ..., ...})] *)
Definition update (r : record) (status ip country city org latency : string) : record :=
  Result (r_name r) (r_proxy r) (r_port r) (r_url r) status ip country city org latency.

Definition ipify_url : string := "https://api.ipify.org?format=json".

Definition ipinfo_url (ip_address : string) : string :=
  "https://ipinfo.io/" ++ ip_address ++ "/json".

(** ** [test_single_proxy_attempt] *)

Section Probe.

Variable net : network.

(** The statements under [try:]. *)
Definition try_body (result : record) (proxy_url : string) : M (record * bool) :=
  start_time <- time_time ;;
  response <- requests_get net ipify_url (Some proxy_url) TIMEOUT ;;
  now <- time_time ;;
  let elapsed := ((now - start_time) * 1000)%Q in
  if (status_code response =? 200)%Z then
    data <- lift_outcome (json response) ;;
    ip_address <- getitem "ip" (dict_find data "ip") ;;
    geo_response <- requests_get net (ipinfo_url ip_address) None TIMEOUT ;;
    geo <- (if (status_code geo_response =? 200)%Z then
              geo_data <- lift_outcome (json geo_response) ;;
              ret (dict_get geo_data "country" "-",
                   dict_get geo_data "city" "-",
                   dict_get geo_data "org" "-")
            else ret ("未知", "未知", "未知")) ;;
    let '(country, city, org) := geo in
    ret (update result "成功" ip_address country city org (format_2f elapsed),
         true)
  else ret (result, false).

(** The four [except] clauses, tried in the order of the source; what
    none of them matches propagates. *)
Definition except_clauses (result : record) (e : exn) : M (record * bool) :=
  if isinstance e Classes.Timeout then
    ret (set_status result "超时", false)
  else if isinstance e Classes.ProxyError then
    ret (set_status result "代理错误", false)
  else if isinstance e Classes.RequestException then
    ret (set_status result ("失败: " ++ type_name e), false)
  else if isinstance e Classes.Exception then
    ret (set_status result ("错误: " ++ type_name e), false)
  else raise e.

Definition initial_result (name proxy_name : string) (port : Z) (proxy_url : string)
  : record :=
  Result name proxy_name port proxy_url "失败" "-" "-" "-" "-" "-".

Definition test_single_proxy_attempt (info : proxy_info) : M (record * bool) :=
  enter_attempt ;;
  name <- getitem "name" (listener_name info) ;;
  port <- getitem "port" (listener_port info) ;;
  proxy_name <- getitem "proxy" (listener_proxy info) ;;
  let proxy_url := "socks5://127.0.0.1:" ++ str_int port in
  let result := initial_result name proxy_name port proxy_url in
  try_except (try_body result proxy_url) (except_clauses result).

(** ** [test_proxy] *)

(** The [while retry_count < MAX_RETRIES] loop.  [Some r] is a [return r]
    from inside the loop, [None] is leaving the loop by its condition. *)
Equations while_retry (info : proxy_info) (retry_count : nat)
  : M (option record) by wf (MAX_RETRIES - retry_count) lt :=
  while_retry info retry_count with lt_dec retry_count MAX_RETRIES := {
    | left _ =>
        let retry_count := (retry_count + 1)%nat in
        time_sleep 1 ;;
        name <- getitem "name" (listener_name info) ;;
        port <- getitem "port" (listener_port info) ;;
        print ("正在重试 " ++ name ++ " (端口 " ++ str_int port ++ ")，第 "
                 ++ str_nat retry_count ++ " 次...") ;;
        attempt <- test_single_proxy_attempt info ;;
        let '(retry_result, retry_success) := attempt in
        if retry_success : bool then
          ret (Some (set_status retry_result
                       (r_status retry_result ++ " (重试 " ++ str_nat retry_count ++ " 次)")))
        else while_retry info retry_count
    | right _ => ret None }.
Next Obligation.
  change (MAX_RETRIES - (retry_count0 + 1) < MAX_RETRIES - retry_count0). lia.
Qed.

Definition test_proxy (info : proxy_info) : M record :=
  attempt <- test_single_proxy_attempt info ;;
  let '(result, success) := attempt in
  if success : bool then ret result
  else
    returned <- while_retry info 1 ;;
    match returned with
    | Some retry_result => ret retry_result
    | None =>
        ret (set_status result
               (r_status result ++ " (已重试 " ++ str_nat MAX_RETRIES ++ " 次)"))
    end.

End Probe.

(** ** [main]: the worker pool, the collection loop and the aggregation *)

(** A future is what [future.result()] does: return the task's record or
    re-raise what the task raised. *)
Definition future := outcome record.

(** The command line: [-t] and [-n]. *)
Record args := Args { threads : Z; num : Z }.

(** The rows of the data frame: the "序号" column and the result columns. *)
Definition row : Type := nat * record.

Record report := Report {
  df : list row;                          (* the frame written to the CSV *)
  status_counts : list (string * nat);
  success_count : nat;
  summary : list string;                  (* the statistics lines on stdout *)
  errors : list string                    (* the lines on stderr *)
}.

Inductive run : Type :=
| SysExit (code : Z) (stderr : list string)     (* [sys.exit(code)] *)
| Uncaught (e : exn)                            (* an exception leaves [main] *)
| Finished (rep : report).

(** [proxies[:num]] under the guard of the source. *)
Definition select (num : Z) (listeners : list proxy_info) : list proxy_info :=
  if ((0 <? num)%Z && (num <? Z.of_nat (length listeners))%Z)%bool
  then firstn (Z.to_nat num) listeners
  else listeners.

(** The loop over [as_completed(futures)]: a record is appended, an
    [Exception] is printed to stderr, anything else leaves the loop. *)
Fixpoint collect (completed : list future) (results : list record)
  (stderr : list string) : outcome (list record * list string) :=
  match completed with
  | [] => Ok (results, stderr)
  | Ok result :: rest => collect rest (results ++ [result]) stderr
  | Raise e :: rest =>
      if isinstance e Classes.Exception
      then collect rest results (stderr ++ ["测试过程中出错: " ++ exn_str e])
      else Raise e
  end.

(** [df['序号'] = range(1, len(df) + 1)] *)
Definition number_rows (rows : list record) : list row :=
  combine (seq 1 (length rows)) rows.

(** [df.sort_values('端口', ascending=True)], as an insertion sort; rows of
    equal port keep their order here, which pandas does not promise. *)
Fixpoint insert_row (r : row) (rows : list row) : list row :=
  match rows with
  | [] => [r]
  | x :: rest =>
      if (r_port (snd r) <=? r_port (snd x))%Z then r :: x :: rest
      else x :: insert_row r rest
  end.

Definition sort_values (rows : list row) : list row :=
  fold_right insert_row [] rows.

(** The tally loop over [df['状态']]. *)
Definition base_status (status : string) : string := split_head " (" status.

Definition count_status (counts : list (string * nat)) (status : string)
  : list (string * nat) :=
  let base := base_status status in
  dict_set counts base (dict_get counts base 0 + 1).

Definition tally (statuses : list string) : list (string * nat) :=
  fold_left count_status statuses [].

Definition nl : string := String (ascii_of_nat 10) EmptyString.

(** [f"{count/len(proxies)*100:.2f}"] *)
Definition percent (count total : nat) : string :=
  format_2f (inject_Z (Z.of_nat count) / inject_Z (Z.of_nat total) * 100)%Q.

Definition status_line (total : nat) (entry : string * nat) : string :=
  fst entry ++ ": " ++ str_nat (snd entry) ++ " (" ++ percent (snd entry) total ++ "%)".

Section Main.

(** The network and the clock each task sees, by position in the
    submitted list, and the order in which the futures complete. *)
Variable nets : nat -> network.
Variable started : nat -> Q.
Variable as_completed : list future -> list future.

Fixpoint submit (first : nat) (proxies : list proxy_info) : list future :=
  match proxies with
  | [] => []
  | proxy :: rest =>
      fst (test_proxy (nets first) proxy (World (started first) 0 0 []))
        :: submit (S first) rest
  end.

(** [main] from the loaded configuration on; [listeners] is
    [config['listeners']] when the key is there.  The temporary column
    "延迟数值" is added and dropped again without use, the CSV is written from
    [df], and the closing prints (the output path, a sample of the successful
    rows) add nothing to the report; they are left out. *)
Definition main (a : args) (listeners : option (list proxy_info)) : run :=
  match listeners with
  | None => SysExit 1 ["配置文件中没有找到listeners部分"]
  | Some listeners =>
      let proxies := select (num a) listeners in
      if (threads a <=? 0)%Z then
        (* ThreadPoolExecutor(max_workers=...) refuses a pool without workers *)
        Uncaught (Raised.value_error "max_workers must be greater than 0")
      else
      let futures := submit 0 proxies in
      match collect (as_completed futures) [] [] with
      | Raise e => Uncaught e
      | Ok ([], stderr) => SysExit 1 (stderr ++ ["没有测试结果"])
      | Ok (results, stderr) =>
          let df := number_rows results in
          let df := sort_values df in
          let df := number_rows (map snd df) in
          let status_counts := tally (map (fun r => r_status (snd r)) df) in
          let success_count := dict_get status_counts "成功" 0 in
          Finished
            (Report df status_counts success_count
               ([nl ++ "测试完成！总计: " ++ str_nat (length proxies) ++ " 个代理";
                 "成功: " ++ str_nat success_count ++ " ("
                   ++ percent success_count (length proxies) ++ "%)"]
                ++ map (status_line (length proxies))
                     (filter (fun e => negb (String.eqb (fst e) "成功")) status_counts))
               stderr)
      end
  end.

End Main.

(** * Notions used in the statements *)

(** The world in which the [try] block starts. *)
Definition entered (w : world) : world :=
  World (clock w) (requests_sent w) (S (attempts w)) (stdout w).

Definition proxy_url_of (port : Z) : string := "socks5://127.0.0.1:" ++ str_int port.

Definition primary_request (port : Z) : request :=
  Request ipify_url (Some (proxy_url_of port)) TIMEOUT.

Definition geo_request (ip_address : string) : request :=
  Request (ipinfo_url ip_address) None TIMEOUT.

(** A computation that never calls [test_single_proxy_attempt] leaves the
    counter alone, whether it returns or raises. *)
Definition keeps_attempts {A} (m : M A) : Prop :=
  forall w, attempts (snd (m w)) = attempts w.

(** [m] calls [test_single_proxy_attempt] at most [n] times. *)
Definition calls_at_most {A} (n : nat) (m : M A) : Prop :=
  forall w, attempts (snd (m w)) <= attempts w + n.

(** [m] returns only values that satisfy [P]. *)
Definition yields {A} (P : A -> Prop) (m : M A) : Prop :=
  forall w a w', m w = (Ok a, w') -> P a.

(** The record names the listener it was made for. *)
Definition record_of (info : proxy_info) (r : record) : Prop :=
  listener_name info = Some (r_name r) /\
  listener_port info = Some (r_port r) /\
  listener_proxy info = Some (r_proxy r).

Definition attempt_of (info : proxy_info) (x : record * bool) : Prop :=
  record_of info (fst x).




(** The records of the futures that returned, in order, and the exceptions
    of those that raised. *)
Fixpoint returned (fs : list future) : list record :=
  match fs with
  | [] => []
  | Ok r :: rest => r :: returned rest
  | Raise _ :: rest => returned rest
  end.

Fixpoint raised (fs : list future) : list exn :=
  match fs with
  | [] => []
  | Ok _ :: rest => raised rest
  | Raise e :: rest => e :: raised rest
  end.

Definition port_le (a b : row) : Prop := (r_port (snd a) <= r_port (snd b))%Z.

Definition ascending (rows : list row) : Prop := StronglySorted port_le rows.


(** What [main] computes from the collected records: the numbered, sorted
    frame, the tally and the summary. *)
Definition aggregate (total : nat) (results : list record) (stderr : list string)
  : report :=
  let df := number_rows (map snd (sort_values (number_rows results))) in
  let status_counts := tally (map (fun r => r_status (snd r)) df) in
  let success_count := dict_get status_counts "成功" 0 in
  Report df status_counts success_count
    ([nl ++ "测试完成！总计: " ++ str_nat total ++ " 个代理";
      "成功: " ++ str_nat success_count ++ " (" ++ percent success_count total ++ "%)"]
     ++ map (status_line total)
          (filter (fun e => negb (String.eqb (fst e) "成功")) status_counts))
    stderr.

Definition report_of (r : run) : report :=
  match r with
  | Finished rep => rep
  | _ => Report [] [] 0 [] []
  end.

Module Scenario.

Definition listener (i : Z) (upstream : string) : proxy_info :=
  ProxyInfo (Some ("mixed" ++ str_int i)) (Some (42000 + i)%Z) (Some upstream).

Definition info0 : proxy_info := listener 0 "HK-01".

Definition w0 : world := World 0 0 0 [].

Definition ipify_ok : outcome response :=
  Ok (Response 200 (Ok [("ip", "203.0.113.7")])).

Definition ipinfo_ok : outcome response :=
  Ok (Response 200 (Ok [("ip", "203.0.113.7"); ("city", "Hong Kong");
                        ("country", "HK"); ("org", "AS64500 Example Net")])).

Definition timed_out : outcome response :=
  Raise (Raised.read_timeout "Read timed out. (read timeout=8)").

Definition refused : outcome response :=
  Raise (Raised.proxy_error "Cannot connect to proxy.").

(** Both requests are answered. *)
Definition net_success : network :=
  fun k _ => match k with
             | 0 => Reply (1 # 4) ipify_ok
             | _ => Reply 5 ipinfo_ok
             end.

(** The first attempt times out, the second succeeds. *)
Definition net_second_succeeds : network :=
  fun k _ => match k with
             | 0 => Reply 8 timed_out
             | 1 => Reply (1 # 4) ipify_ok
             | _ => Reply (1 # 2) ipinfo_ok
             end.

(** Every request times out. *)
Definition net_always_timeout : network := fun _ _ => Reply 8 timed_out.

(** A timeout first, a proxy error on every later request. *)
Definition net_timeout_then_refused : network :=
  fun k _ => match k with
             | 0 => Reply 8 timed_out
             | _ => Reply (1 # 100) refused
             end.

(** The primary request is answered, the geolocation request times out. *)
Definition net_geo_timeout : network :=
  fun k _ => match k with
             | 0 => Reply (1 # 4) ipify_ok
             | _ => Reply 8 timed_out
             end.

(** The primary request is answered with status 503. *)
Definition net_unavailable : network :=
  fun _ _ => Reply (1 # 10) (Ok (Response 503 (Raise (Raised.value_error EmptyString)))).


Definition failed_record (status : string) : record :=
  Result "mixed0" "HK-01" 42000 "socks5://127.0.0.1:42000" status "-" "-" "-" "-" "-".

Definition success_record (status latency : string) : record :=
  Result "mixed0" "HK-01" 42000 "socks5://127.0.0.1:42000" status
         "203.0.113.7" "HK" "Hong Kong" "AS64500 Example Net" latency.

End Scenario.

Module Fleet.

(** Three listeners, given out of port order. *)
Definition targets : list proxy_info :=
  [Scenario.listener 2 "JP-01"; Scenario.listener 0 "HK-01"; Scenario.listener 1 "SG-01"].

(** A listener entry without its ["proxy"] key. *)
Definition no_upstream : proxy_info :=
  ProxyInfo (Some "mixed1") (Some 42001%Z) None.


Definition nets : nat -> network := fun _ => Scenario.net_success.

(** The second listener answers only on its second attempt. *)
Definition mixed_nets : nat -> network :=
  fun i => match i with
           | 1 => Scenario.net_second_succeeds
           | 2 => Scenario.net_always_timeout
           | _ => Scenario.net_success
           end.

Definition started : nat -> Q := fun _ => 0%Q.

Definition in_order (fs : list future) : list future := fs.

Definition last_first (fs : list future) : list future := rev fs.

Definition cli : args := Args 5 0.

End Fleet.

(** * Further notions *)

(** [m] sends at most [n] requests, and never un-sends one. *)
Definition sends_at_most {A} (n : nat) (m : M A) : Prop :=
  forall w,
    requests_sent w <= requests_sent (snd (m w)) /\
    requests_sent (snd (m w)) <= requests_sent w + n.




(** The world in which a retry starts: one second later, one line
    printed. *)
Definition before_retry (name : string) (port : Z) (retry_count : nat) (w : world)
  : world :=
  World (clock w + 1)%Q (requests_sent w) (attempts w)
        (stdout w ++ ["正在重试 " ++ name ++ " (端口 " ++ str_int port ++ ")，第 "
                        ++ str_nat retry_count ++ " 次..."]).

(** Every exception the network can raise, from a request or from
    [response.json()], is an instance of [Exception]. *)
Definition raises_exceptions_only (net : network) : Prop :=
  forall k q,
    match answer (net k q) with
    | Raise e => isinstance e Classes.Exception = true
    | Ok resp =>
        match json resp with
        | Raise e => isinstance e Classes.Exception = true
        | Ok _ => True
        end
    end.

(** A listener entry with its three keys. *)
Definition well_formed (info : proxy_info) : Prop :=
  exists name port proxy_name,
    info = ProxyInfo (Some name) (Some port) (Some proxy_name).

(** The line [main] prints on stderr for a task that raised. *)
Definition task_error_line (e : exn) : string := "测试过程中出错: " ++ exn_str e.

(** Records in ascending order of port. *)
Definition ports_ascend (rows : list record) : Prop :=
  StronglySorted (fun a b => (r_port a <= r_port b)%Z) rows.

(** The listener entry a record was made for. *)
Definition listener_of (r : record) : proxy_info :=
  ProxyInfo (Some (r_name r)) (Some (r_port r)) (Some (r_proxy r)).

(** [m] raises nothing but instances of [Exception]. *)
Definition safe {A} (m : M A) : Prop :=
  forall w,
    match fst (m w) with
    | Ok _ => True
    | Raise e => isinstance e Classes.Exception = true
    end.

(** [m] always returns. *)
Definition never_raises {A} (m : M A) : Prop :=
  forall w, exists a, fst (m w) = Ok a.

(** * The configuration files *)

(** ** YAML documents as [yaml.safe_load] returns them *)

(** The null, boolean, integer and string scalars, sequences, and
    mappings with string keys (entries in insertion order); floats, dates
    and binary values do not occur in the configurations at hand. *)
#[warnings="-register-all"]
Inductive yaml : Type :=
| YNull
| YBool (b : bool)
| YInt (z : Z)
| YStr (s : string)
| YList (items : list yaml)
| YDict (entries : list (string * yaml)).

Module Builtins.
Import Classes.
Definition TypeError := PyClass "builtins" "TypeError".
Definition type_error := Exn TypeError Raised.builtin_tail.
End Builtins.

(** [bool(v)], the test behind [not v]. *)
Definition truthy (v : yaml) : bool :=
  match v with
  | YNull => false
  | YBool b => b
  | YInt z => negb (z =? 0)%Z
  | YStr s => negb (String.eqb s EmptyString)
  | YList items => match items with [] => false | _ :: _ => true end
  | YDict entries => match entries with [] => false | _ :: _ => true end
  end.

(** The type name the interpreter prints for a value. *)
Definition py_type_name (v : yaml) : string :=
  match v with
  | YNull => "NoneType"
  | YBool _ => "bool"
  | YInt _ => "int"
  | YStr _ => "str"
  | YList _ => "list"
  | YDict _ => "dict"
  end.

(** [key in v] for a string [key]: a key of a mapping, an element of a
    sequence, a substring of a string; the other scalars are no
    containers.  The text of a [TypeError] is the interpreter's and varies
    with its version; only its class is used below. *)
Definition py_contains (key : string) (v : yaml) : outcome bool :=
  match v with
  | YDict entries =>
      Ok (match dict_find entries key with Some _ => true | None => false end)
  | YList items =>
      Ok (existsb (fun item => match item with
                               | YStr s => String.eqb s key
                               | _ => false
                               end) items)
  | YStr s => Ok (contains key s)
  | _ => Raise (Builtins.type_error
                  ("argument of type '" ++ py_type_name v ++ "' is not iterable"))
  end.

(** [v[key]] for a string [key]. *)
Definition py_subscript (v : yaml) (key : string) : outcome yaml :=
  match v with
  | YDict entries =>
      match dict_find entries key with
      | Some x => Ok x
      | None => Raise (Raised.key_error key)
      end
  | YList _ =>
      Raise (Builtins.type_error "list indices must be integers or slices, not str")
  | YStr _ =>
      Raise (Builtins.type_error "string indices must be integers, not 'str'")
  | _ => Raise (Builtins.type_error
                  ("'" ++ py_type_name v ++ "' object is not subscriptable"))
  end.

(** What opening and loading a YAML file does. *)
Inductive file_read : Type :=
| OpenFails (e : exn)          (* [open(...)] raises *)
| LoadFails (e : exn)          (* [yaml.safe_load(f)] raises *)
| Loaded (doc : yaml).

(** How a piece of a script ends. *)
Inductive ended (A : Type) : Type :=
| Value (a : A)                                 (* it goes on with [a] *)
| Exit (code : Z) (stderr : list string)        (* [sys.exit(code)] *)
| Crash (e : exn).                              (* an exception leaves it *)
Arguments Value {A} a.
Arguments Exit {A} code stderr.
Arguments Crash {A} e.

(** ** [load_config] and the first lines of [main] in ping_proxies.py *)

Definition load_config (file : file_read) : ended yaml :=
  match file with
  | Loaded doc => Value doc
  | OpenFails e | LoadFails e =>
      if isinstance e Classes.Exception
      then Exit 1 ["读取配置文件时出错: " ++ exn_str e]
      else Crash e
  end.

(** [config = load_config(...)], the test for ['listeners'] and
    [proxies = config['listeners']]. *)
Definition read_listeners (file : file_read) : ended yaml :=
  match load_config file with
  | Value config =>
      match py_contains "listeners" config with
      | Raise e => Crash e
      | Ok false => Exit 1 ["配置文件中没有找到listeners部分"]
      | Ok true =>
          match py_subscript config "listeners" with
          | Raise e => Crash e
          | Ok proxies => Value proxies
          end
      end
  | Exit code stderr => Exit code stderr
  | Crash e => Crash e
  end.

(** The listener entries the model of [main] is typed for: mappings whose
    [name] and [proxy], where present, are strings and whose [port], where
    present, is an integer.  [None] is a document outside that type. *)
Definition string_entry (entries : list (string * yaml)) (key : string)
  : option (option string) :=
  match dict_find entries key with
  | None => Some None
  | Some (YStr s) => Some (Some s)
  | Some _ => None
  end.

Definition int_entry (entries : list (string * yaml)) (key : string)
  : option (option Z) :=
  match dict_find entries key with
  | None => Some None
  | Some (YInt z) => Some (Some z)
  | Some _ => None
  end.

Definition as_proxy_info (v : yaml) : option proxy_info :=
  match v with
  | YDict entries =>
      match string_entry entries "name", int_entry entries "port",
            string_entry entries "proxy" with
      | Some name, Some port, Some proxy => Some (ProxyInfo name port proxy)
      | _, _, _ => None
      end
  | _ => None
  end.

Fixpoint as_listeners (items : list yaml) : option (list proxy_info) :=
  match items with
  | [] => Some []
  | item :: rest =>
      match as_proxy_info item, as_listeners rest with
      | Some info, Some infos => Some (info :: infos)
      | _, _ => None
      end
  end.

(** [main] from the configuration file on, for listener entries of that
    type. *)
Definition main_from_file
           (nets : nat -> network) (started : nat -> Q)
           (as_completed : list future -> list future)
           (a : args) (file : file_read) : option run :=
  match read_listeners file with
  | Exit code stderr => Some (SysExit code stderr)
  | Crash e => Some (Uncaught e)
  | Value (YList items) =>
      match as_listeners items with
      | Some listeners => Some (main nets started as_completed a (Some listeners))
      | None => None
      end
  | Value _ => None
  end.

(** ** convert_to_socks_proxies.py *)

(** The two output streams of the script. *)
Record console := Console { out : list string; err : list string }.

Definition IO (A : Type) : Type := console -> outcome A * console.

Definition io_ret {A} (a : A) : IO A := fun c => (Ok a, c).

Definition io_raise {A} (e : exn) : IO A := fun c => (Raise e, c).

Definition io_bind {A B} (m : IO A) (k : A -> IO B) : IO B :=
  fun c =>
    match m c with
    | (Ok a, c') => k a c'
    | (Raise e, c') => (Raise e, c')
    end.

Declare Scope io_scope.
Delimit Scope io_scope with io.
Notation "x <- m ;; k" := (io_bind m (fun x => k))
  (at level 61, m at next level, right associativity) : io_scope.
Notation "m ;; k" := (io_bind m (fun _ => k))
  (at level 61, right associativity) : io_scope.

Definition print_out (line : string) : IO unit :=
  fun c => (Ok tt, Console (out c ++ [line]) (err c)).

Definition print_err (line : string) : IO unit :=
  fun c => (Ok tt, Console (out c) (err c ++ [line])).

Definition io_lift {A} (o : outcome A) : IO A :=
  match o with
  | Ok a => io_ret a
  | Raise e => io_raise e
  end.

(** The [try: with open(...) ... except Exception as e: print(...); raise]
    block at the head of [convert_to_socks_proxies]. *)
Definition read_yaml (file : file_read) : IO yaml :=
  let reraise e :=
    (if isinstance e Classes.Exception
     then (print_err ("读取文件时出错: " ++ exn_str e) ;; io_raise e)%io
     else io_raise e) in
  match file with
  | OpenFails e => reraise e
  | LoadFails e => (print_out "正在读取文件..." ;; reraise e)%io
  | Loaded doc =>
      (print_out "正在读取文件..." ;; print_out "文件读取完成" ;; io_ret doc)%io
  end.

(** One listener of the new configuration: a dict with exactly these four
    keys; the proxy name is whatever the Clash file holds under [name]. *)
Record listener := Listener {
  l_name : string;        (* 'name' *)
  l_type : string;        (* 'type' *)
  l_port : Z;             (* 'port' *)
  l_proxy : yaml          (* 'proxy' *)
}.

(** The new configuration: a dict with exactly these four keys. *)
Record socks_config := SocksConfig {
  cfg_allow_lan : bool;           (* 'allow-lan' *)
  cfg_dns : yaml;                 (* 'dns' *)
  cfg_listeners : list listener;  (* 'listeners' *)
  cfg_proxies : list yaml         (* 'proxies' *)
}.

Definition dns_settings : yaml :=
  YDict [("enable", YBool true);
         ("enhanced-mode", YStr "fake-ip");
         ("fake-ip-range", YStr "198.18.0.1/16");
         ("default-nameserver", YList [YStr "114.114.114.114"]);
         ("nameserver", YList [YStr "https://doh.pub/dns-query"])].

(** [[{...} for i, proxy in enumerate(proxies)]], from index [i] on: the
    first [proxy['name']] that raises ends the comprehension. *)
Fixpoint make_listeners (start_port : Z) (i : nat) (proxies : list yaml)
  : outcome (list listener) :=
  match proxies with
  | [] => Ok []
  | proxy :: rest =>
      match py_subscript proxy "name" with
      | Raise e => Raise e
      | Ok proxy_name =>
          match make_listeners start_port (S i) rest with
          | Raise e => Raise e
          | Ok listeners =>
              Ok (Listener ("mixed" ++ str_nat i) "mixed" (start_port + Z.of_nat i)
                    proxy_name :: listeners)
          end
      end
  end.

(** [yaml_data['proxies']] is looked up once here; the source repeats the
    lookup, which gives the same value each time. *)
Definition convert_to_socks_proxies (input_file : string) (file : file_read)
           (start_port : Z) : IO socks_config :=
  (print_out ("开始处理文件: " ++ input_file) ;;
   yaml_data <- read_yaml file ;;
   if negb (truthy yaml_data) then
     io_raise (Raised.value_error "YAML 文件为空或格式错误")
   else
     has_proxies <- io_lift (py_contains "proxies" yaml_data) ;;
     if negb has_proxies then
       io_raise (Raised.value_error "无效的 Clash 配置文件，缺少 proxies 部分")
     else
       proxies <- io_lift (py_subscript yaml_data "proxies") ;;
       match proxies with
       | YList items =>
           print_out ("找到 " ++ str_nat (length items) ++ " 个代理节点") ;;
           print_out "正在创建监听器配置..." ;;
           listeners <- io_lift (make_listeners start_port 0 items) ;;
           print_out "配置转换完成" ;;
           io_ret (SocksConfig true dns_settings listeners items)
       | _ => io_raise (Raised.value_error "proxies 部分格式错误，应该是一个列表")
       end)%io.

(** The document [yaml.dump] writes for a configuration, as
    [yaml.safe_load] reads it back. *)
Definition listener_yaml (l : listener) : yaml :=
  YDict [("name", YStr (l_name l)); ("type", YStr (l_type l));
         ("port", YInt (l_port l)); ("proxy", l_proxy l)].

Definition config_yaml (config : socks_config) : yaml :=
  YDict [("allow-lan", YBool (cfg_allow_lan config));
         ("dns", cfg_dns config);
         ("listeners", YList (map listener_yaml (cfg_listeners config)));
         ("proxies", YList (cfg_proxies config))].

(** The command line of the converter: [input], [-o] and [-p]. *)
Record convert_args := ConvertArgs {
  arg_input : string;
  arg_output : string;
  arg_port : Z
}.

(** What opening the output file for writing and dumping into it does. *)
Inductive file_write : Type :=
| OpenForWriteFails (e : exn)
| DumpFails (e : exn)
| WriteOk.

(** The output file after the run. *)
Inductive output_file : Type :=
| Untouched
| Truncated                            (* opened for writing, dump not completed *)
| Holds (config : socks_config).

(** What a run of the converter leaves: its exit status, its two streams
    and the output file. *)
Record conversion := Conversion {
  exit_status : Z;
  streams : console;
  output_after : output_file
}.

Section ConvertMain.

(** [str(v)] of a sequence or a mapping, which the interpreter provides. *)
Variable py_repr : yaml -> string.

(** [f"{v}"] *)
Definition py_str (v : yaml) : string :=
  match v with
  | YNull => "None"
  | YBool true => "True"
  | YBool false => "False"
  | YInt z => str_int z
  | YStr s => s
  | _ => py_repr v
  end.

Definition listener_line (l : listener) : string :=
  "- " ++ l_name l ++ ": socks5://127.0.0.1:" ++ str_int (l_port l)
    ++ " (代理: " ++ py_str (l_proxy l) ++ ")".

Fixpoint print_listeners (listeners : list listener) : IO unit :=
  match listeners with
  | [] => io_ret tt
  | l :: rest => (print_out (listener_line l) ;; print_listeners rest)%io
  end.

(** The prints after the file is written. *)
Definition report_conversion (a : convert_args) (config : socks_config) : IO unit :=
  (print_out ("转换成功！配置文件已保存到 " ++ arg_output a) ;;
   print_out ("起始端口: " ++ str_int (arg_port a) ++ ", 结束端口: "
                ++ str_int (arg_port a + Z.of_nat (length (cfg_proxies config)) - 1)) ;;
   print_out (nl ++ "生成的监听器:") ;;
   print_listeners (cfg_listeners config))%io.

(** [main] of the converter, the arguments parsed. *)
Definition convert_main (a : convert_args) (file : file_read) (write : file_write)
  : ended conversion :=
  let c0 := Console ["参数解析完成: 输入=" ++ arg_input a ++ ", 输出=" ++ arg_output a
                       ++ ", 端口=" ++ str_int (arg_port a)] [] in
  let failed e c file_after :=
    if isinstance e Classes.Exception
    then Value (Conversion 1 (Console (out c) (err c ++ ["转换失败: " ++ exn_str e]))
                  file_after)
    else Crash e in
  match convert_to_socks_proxies (arg_input a) file (arg_port a) c0 with
  | (Raise e, c) => failed e c Untouched
  | (Ok config, c) =>
      let c := Console (out c ++ ["正在写入配置到文件: " ++ arg_output a]) (err c) in
      match write with
      | OpenForWriteFails e => failed e c Untouched
      | DumpFails e => failed e c Truncated
      | WriteOk =>
          match report_conversion a config c with
          | (Raise e, c') => failed e c' (Holds config)
          | (Ok _, c') => Value (Conversion 0 c' (Holds config))
          end
      end
  end.

End ConvertMain.

(** * Notions for the configuration files *)

(** [v] is a scalar that is no container: null, a boolean or an integer. *)
Definition plain_scalar (v : yaml) : Prop :=
  match v with
  | YNull | YBool _ | YInt _ => True
  | _ => False
  end.

(** The [name] of a proxy entry of the Clash file, when the entry is a
    mapping that has one. *)
Definition proxy_name_of (proxy : yaml) : option yaml :=
  match proxy with
  | YDict entries => dict_find entries "name"
  | _ => None
  end.

(** The listeners of the proxies from index [i] on, given their names. *)
Fixpoint listeners_for (start_port : Z) (i : nat) (names : list yaml) : list listener :=
  match names with
  | [] => []
  | name :: rest =>
      Listener ("mixed" ++ str_nat i) "mixed" (start_port + Z.of_nat i) name
        :: listeners_for start_port (S i) rest
  end.

(** The names of all proxies, when every proxy has one. *)
Fixpoint proxy_names (proxies : list yaml) : option (list yaml) :=
  match proxies with
  | [] => Some []
  | proxy :: rest =>
      match proxy_name_of proxy, proxy_names rest with
      | Some name, Some names => Some (name :: names)
      | _, _ => None
      end
  end.

(** The listener entry as [ping_proxies.py] is typed for it. *)
Definition listener_info (l : listener) : option proxy_info :=
  match l_proxy l with
  | YStr upstream => Some (ProxyInfo (Some (l_name l)) (Some (l_port l)) (Some upstream))
  | _ => None
  end.

Module Clash.

(** A Clash configuration with two proxies. *)
Definition document : yaml :=
  YDict [("mixed-port", YInt 7890);
         ("proxies",
          YList [YDict [("name", YStr "HK-01"); ("type", YStr "ss");
                        ("server", YStr "hk.example.net"); ("port", YInt 8388)];
                 YDict [("name", YStr "JP-01"); ("type", YStr "trojan");
                        ("server", YStr "jp.example.net"); ("port", YInt 443)]])].

Definition file : file_read := Loaded document.

Definition cli : convert_args := ConvertArgs "clash.yaml" "config.yaml" 42000.

Definition start : console := Console [] [].

(** The configuration the converter makes of it. *)
Definition converted : socks_config :=
  SocksConfig true dns_settings
    [Listener "mixed0" "mixed" 42000 (YStr "HK-01");
     Listener "mixed1" "mixed" 42001 (YStr "JP-01")]
    [YDict [("name", YStr "HK-01"); ("type", YStr "ss");
            ("server", YStr "hk.example.net"); ("port", YInt 8388)];
     YDict [("name", YStr "JP-01"); ("type", YStr "trojan");
            ("server", YStr "jp.example.net"); ("port", YInt 443)]].

(** A stand-in for the interpreter's [repr] of containers. *)
Definition repr (v : yaml) : string := "<container>".


End Clash.

(** The console [main] of the converter starts [convert_to_socks_proxies]
    in. *)
Definition after_arguments (a : convert_args) : console :=
  Console ["参数解析完成: 输入=" ++ arg_input a ++ ", 输出=" ++ arg_output a
             ++ ", 端口=" ++ str_int (arg_port a)] [].


(** The listeners of a configuration as [ping_proxies.py] is typed for
    them, when every proxy name is a string. *)
Fixpoint typed_listeners (listeners : list listener) : option (list proxy_info) :=
  match listeners with
  | [] => Some []
  | l :: rest =>
      match listener_info l, typed_listeners rest with
      | Some info, Some infos => Some (info :: infos)
      | _, _ => None
      end
  end.

(** The port of a listener entry that has one. *)
Definition target_port (info : proxy_info) : Z :=
  match listener_port info with
  | Some p => p
  | None => 0%Z
  end.

Module Pipeline.

(** The two listeners of [Clash.converted] as the prober reads them. *)
Definition typed : list proxy_info :=
  [ProxyInfo (Some "mixed0") (Some 42000%Z) (Some "HK-01");
   ProxyInfo (Some "mixed1") (Some 42001%Z) (Some "JP-01")].

End Pipeline.

(** * Properties *)

(** ** Strings and number formatting *)

Lemma round_half_even_Qeq (x y : Q) :
  (x == y)%Q -> round_half_even x = round_half_even y.
Proof.
  intros Hxy. unfold round_half_even.
  rewrite (Qfloor_comp _ _ Hxy).
  assert (Hc : Qcompare (x - inject_Z (Qfloor y)) (1 # 2)
               = Qcompare (y - inject_Z (Qfloor y)) (1 # 2)).
  { apply Qcompare_comp; [rewrite Hxy|]; reflexivity. }
  now rewrite Hc.
Qed.

Lemma format_2f_Qeq (x y : Q) : (x == y)%Q -> format_2f x = format_2f y.
Proof.
  intros Hxy. unfold format_2f.
  assert (Hr : round_half_even (Qabs x * 100) = round_half_even (Qabs y * 100)).
  { apply round_half_even_Qeq. now rewrite Hxy. }
  assert (Hs : Qcompare x 0 = Qcompare y 0).
  { apply Qcompare_comp; [exact Hxy | reflexivity]. }
  now rewrite Hr, Hs.
Qed.

Lemma length_append (s t : string) :
  String.length (s ++ t) = String.length s + String.length t.
Proof. induction s as [|c s IH]; simpl; [reflexivity | now rewrite IH]. Qed.

Lemma str_int_nonempty (z : Z) : 1 <= String.length (str_int z).
Proof.
  unfold str_int, NilZero.string_of_int.
  assert (H : forall u, 1 <= String.length (NilZero.string_of_uint u)).
  { intros u. unfold NilZero.string_of_uint.
    destruct u; simpl; lia. }
  destruct (Z.to_int z); simpl; [apply H | specialize (H d); lia].
Qed.

(** A formatted number is at least four characters long, so it is never the
    one-character placeholder. *)
Lemma format_2f_length (x : Q) : 4 <= String.length (format_2f x).
Proof.
  unfold format_2f, two_digits.
  repeat rewrite length_append.
  pose proof (str_int_nonempty (round_half_even (Qabs x * 100) / 100)).
  pose proof (str_int_nonempty (round_half_even (Qabs x * 100) mod 100 / 10)).
  pose proof (str_int_nonempty ((round_half_even (Qabs x * 100) mod 100) mod 10)).
  simpl String.length at 3. lia.
Qed.

Lemma format_2f_populated (x : Q) : format_2f x <> "-".
Proof.
  intros H. pose proof (format_2f_length x) as L. rewrite H in L. simpl in L. lia.
Qed.

(** ** Frame rule for the attempt counter *)

Create HintDb keeps discriminated.

Lemma keeps_ret {A} (a : A) : keeps_attempts (ret a).
Proof. intros w; reflexivity. Qed.

Lemma keeps_raise {A} (e : exn) : keeps_attempts (@raise A e).
Proof. intros w; reflexivity. Qed.

Lemma keeps_bind {A B} (m : M A) (k : A -> M B) :
  keeps_attempts m -> (forall a, keeps_attempts (k a)) -> keeps_attempts (bind m k).
Proof.
  intros Hm Hk w. unfold bind. specialize (Hm w).
  destruct (m w) as [[a|e] w']; simpl in *; [rewrite Hk|]; exact Hm.
Qed.

Lemma keeps_try_except {A} (body : M A) (handler : exn -> M A) :
  keeps_attempts body -> (forall e, keeps_attempts (handler e)) ->
  keeps_attempts (try_except body handler).
Proof.
  intros Hm Hk w. unfold try_except. specialize (Hm w).
  destruct (body w) as [[a|e] w']; simpl in *; [|rewrite Hk]; exact Hm.
Qed.

Lemma keeps_getitem {A} (key : string) (entry : option A) :
  keeps_attempts (getitem key entry).
Proof. destruct entry; intros w; reflexivity. Qed.

Lemma keeps_lift_outcome {A} (o : outcome A) : keeps_attempts (lift_outcome o).
Proof. destruct o; intros w; reflexivity. Qed.

Lemma keeps_time_time : keeps_attempts time_time.
Proof. intros w; reflexivity. Qed.

Lemma keeps_time_sleep (s : Q) : keeps_attempts (time_sleep s).
Proof. intros w; reflexivity. Qed.

Lemma keeps_print (line : string) : keeps_attempts (print line).
Proof. intros w; reflexivity. Qed.

Lemma keeps_requests_get (net : network) (u : string) (via : option string) (t : Z) :
  keeps_attempts (requests_get net u via t).
Proof. intros w; reflexivity. Qed.

Lemma keeps_if {A} (b : bool) (m1 m2 : M A) :
  keeps_attempts m1 -> keeps_attempts m2 -> keeps_attempts (if b then m1 else m2).
Proof. destruct b; auto. Qed.

#[export] Hint Resolve keeps_ret keeps_raise keeps_getitem keeps_lift_outcome
  keeps_time_time keeps_time_sleep keeps_print keeps_requests_get : keeps.

Ltac keeps :=
  repeat first
    [ progress intros
    | apply keeps_bind
    | apply keeps_try_except
    | apply keeps_if
    | solve [auto with keeps]
    | match goal with
      | |- keeps_attempts (let '(_, _) := ?p in _) => destruct p
      end ].

(** ** One attempt *)

Section AttemptFacts.

Variable net : network.

Lemma keeps_try_body (result : record) (proxy_url : string) :
  keeps_attempts (try_body net result proxy_url).
Proof. unfold try_body. keeps. Qed.

Lemma keeps_except_clauses (result : record) (e : exn) :
  keeps_attempts (except_clauses result e).
Proof. unfold except_clauses. keeps. Qed.

(** Every call of [test_single_proxy_attempt] is counted once, whatever it
    returns or raises. *)
Lemma attempt_counted (info : proxy_info) (w : world) :
  attempts (snd (test_single_proxy_attempt net info w)) = S (attempts w).
Proof.
  unfold test_single_proxy_attempt.
  set (rest := (name <- getitem "name" (listener_name info) ;; _)).
  assert (Hrest : keeps_attempts rest).
  { subst rest. keeps; auto using keeps_try_body, keeps_except_clauses. }
  unfold bind at 1. simpl. now rewrite Hrest.
Qed.

(** With the three keys present, the attempt is the [try] statement. *)
Lemma attempt_unfold (name proxy_name : string) (port : Z) (w : world) :
  test_single_proxy_attempt net (ProxyInfo (Some name) (Some port) (Some proxy_name)) w
  = try_except
      (try_body net (initial_result name proxy_name port (proxy_url_of port))
         (proxy_url_of port))
      (except_clauses (initial_result name proxy_name port (proxy_url_of port)))
      (entered w).
Proof. reflexivity. Qed.

(** A missing key raises [KeyError] before anything is sent. *)
Lemma attempt_missing_key (info : proxy_info) (w : world) :
  listener_name info = None \/ listener_port info = None \/ listener_proxy info = None ->
  exists key,
    test_single_proxy_attempt net info w = (Raise (Raised.key_error key), entered w).
Proof.
  unfold test_single_proxy_attempt, bind, enter_attempt, getitem, ret, raise.
  fold (entered w).
  destruct (listener_name info); [|exists "name"; reflexivity].
  destruct (listener_port info); [|exists "port"; reflexivity].
  destruct (listener_proxy info); [|exists "proxy"; reflexivity].
  intros [H|[H|H]]; discriminate.
Qed.

End AttemptFacts.

(** ** Counting the attempts of [test_proxy] *)

Lemma calls_keeps {A} (m : M A) : keeps_attempts m -> calls_at_most 0 m.
Proof. intros H w. rewrite H. lia. Qed.

Lemma calls_weaken {A} (n n' : nat) (m : M A) :
  n <= n' -> calls_at_most n m -> calls_at_most n' m.
Proof. intros Hn H w. specialize (H w). lia. Qed.

Lemma calls_bind {A B} (n1 n2 : nat) (m : M A) (k : A -> M B) :
  calls_at_most n1 m -> (forall a, calls_at_most n2 (k a)) ->
  calls_at_most (n1 + n2) (bind m k).
Proof.
  intros Hm Hk w. unfold bind. specialize (Hm w).
  destruct (m w) as [[a|e] w']; simpl in *.
  - specialize (Hk a w'). lia.
  - lia.
Qed.

Lemma calls_bind_keeps {A B} (n : nat) (m : M A) (k : A -> M B) :
  keeps_attempts m -> (forall a, calls_at_most n (k a)) ->
  calls_at_most n (bind m k).
Proof.
  intros Hm Hk. change n with (0 + n). apply calls_bind; [now apply calls_keeps | exact Hk].
Qed.

Section RetryFacts.

Variable net : network.

Lemma calls_attempt (info : proxy_info) :
  calls_at_most 1 (test_single_proxy_attempt net info).
Proof. intros w. rewrite attempt_counted. lia. Qed.

(** From [retry_count] on, the loop makes at most
    [MAX_RETRIES - retry_count] further attempts. *)
Lemma calls_while_retry (info : proxy_info) (retry_count : nat) :
  calls_at_most (MAX_RETRIES - retry_count) (while_retry net info retry_count).
Proof.
  apply (while_retry_elim net
           (fun info retry_count m => calls_at_most (MAX_RETRIES - retry_count) m)).
  - clear info retry_count. intros info retry_count Hlt IH _. cbv zeta in *.
    apply calls_bind_keeps; [auto with keeps | intros _].
    apply calls_bind_keeps; [auto with keeps | intros name].
    apply calls_bind_keeps; [auto with keeps | intros port].
    apply calls_bind_keeps; [auto with keeps | intros u].
    apply calls_weaken with (n := 1 + (MAX_RETRIES - (retry_count + 1))); [lia|].
    apply calls_bind; [apply calls_attempt|].
    intros [retry_result [|]].
    + apply calls_weaken with (n := 0); [lia|]. apply calls_keeps. auto with keeps.
    + intros w. apply (IH tt name port u (retry_result, false) retry_result false w).
  - intros info' retry_count' _ _. apply calls_weaken with (n := 0); [lia|].
    apply calls_keeps. auto with keeps.
Qed.

Lemma calls_test_proxy (info : proxy_info) :
  calls_at_most MAX_RETRIES (test_proxy net info).
Proof.
  unfold test_proxy.
  change MAX_RETRIES with (1 + (MAX_RETRIES - 1)).
  apply calls_bind; [apply calls_attempt|].
  intros [result [|]].
  - apply calls_weaken with (n := 0); [lia|]. apply calls_keeps. auto with keeps.
  - change (MAX_RETRIES - 1) with ((MAX_RETRIES - 1) + 0).
    apply calls_bind; [apply calls_while_retry|].
    intros [r|]; apply calls_keeps; auto with keeps.
Qed.

End RetryFacts.

(** C6: whatever the attempts return or raise, one call of [test_proxy]
    makes at most 3 ([MAX_RETRIES]) calls of [test_single_proxy_attempt]:
    the call counter of the world it ends in is at most 3 above the counter of
    the world it starts in, so a 4th call never happens. *)
Theorem C6_at_most_three_attempts (net : network) (info : proxy_info) (w : world) :
  MAX_RETRIES = 3 /\
  attempts (snd (test_proxy net info w)) <= attempts w + 3.
Proof.
  split; [reflexivity|]. apply (calls_test_proxy net info w).
Qed.

(** ** The outcomes of one attempt *)

Section AttemptOutcomes.

Variable net : network.

(** No [except] clause reports success. *)
Lemma except_clauses_fail (result : record) (e : exn) (w : world)
      (r : record) (w' : world) :
  except_clauses result e w <> (Ok (r, true), w').
Proof.
  unfold except_clauses, ret, raise.
  destruct (isinstance e Classes.Timeout); [discriminate|].
  destruct (isinstance e Classes.ProxyError); [discriminate|].
  destruct (isinstance e Classes.RequestException); [discriminate|].
  destruct (isinstance e Classes.Exception); discriminate.
Qed.

(** What a successful attempt went through: both requests answered, the
    first with status 200 and a body holding ["ip"]. *)
Lemma attempt_success_inv (info : proxy_info) (w : world) (r : record) (w' : world) :
  test_single_proxy_attempt net info w = (Ok (r, true), w') ->
  exists name port proxy_name resp data ip_address geo_resp country city org,
    info = ProxyInfo (Some name) (Some port) (Some proxy_name) /\
    answer (net (requests_sent w) (primary_request port)) = Ok resp /\
    status_code resp = 200%Z /\
    json resp = Ok data /\
    dict_find data "ip" = Some ip_address /\
    answer (net (S (requests_sent w)) (geo_request ip_address)) = Ok geo_resp /\
    ((status_code geo_resp = 200%Z /\
      exists geo_data, json geo_resp = Ok geo_data /\
        country = dict_get geo_data "country" "-" /\
        city = dict_get geo_data "city" "-" /\
        org = dict_get geo_data "org" "-")
     \/ (status_code geo_resp <> 200%Z /\
         country = "未知" /\ city = "未知" /\ org = "未知")) /\
    r = update (initial_result name proxy_name port (proxy_url_of port))
          "成功" ip_address country city org
          (format_2f ((clock w + duration (net (requests_sent w) (primary_request port))
                       - clock w) * 1000)%Q).
Proof.
  destruct info as [[name|] [port|] [proxy_name|]];
    try (intros H;
         match type of H with
         | test_single_proxy_attempt _ ?i _ = _ =>
             destruct (attempt_missing_key net i w) as [key Hk];
             [solve [simpl; auto] | rewrite Hk in H; discriminate]
         end).
  rewrite attempt_unfold. unfold try_except, try_body.
  set (result := initial_result name proxy_name port (proxy_url_of port)).
  unfold bind at 1. unfold time_time at 1.
  unfold bind at 1. unfold requests_get at 1. cbn [entered clock requests_sent].
  fold (primary_request port).
  destruct (answer (net (requests_sent w) (primary_request port))) as [resp|e] eqn:Hans;
    [|intros H; now apply except_clauses_fail in H].
  unfold bind at 1. unfold time_time at 1. cbn [clock].
  destruct (status_code resp =? 200)%Z eqn:Hst;
    [|unfold ret; intros H; discriminate].
  unfold bind at 1. unfold lift_outcome at 1.
  destruct (json resp) as [data|e] eqn:Hjson;
    [|unfold raise; intros H; now apply except_clauses_fail in H].
  unfold ret at 1. unfold bind at 1. unfold getitem at 1.
  destruct (dict_find data "ip") as [ip_address|] eqn:Hip;
    [|unfold raise; intros H; now apply except_clauses_fail in H].
  unfold ret at 1. unfold bind at 1. unfold requests_get at 1.
  cbn [requests_sent clock attempts stdout]. fold (geo_request ip_address).
  destruct (answer (net (S (requests_sent w)) (geo_request ip_address)))
    as [geo_resp|e] eqn:Hgeo;
    [|intros H; now apply except_clauses_fail in H].
  unfold bind at 1.
  destruct (status_code geo_resp =? 200)%Z eqn:Hgst.
  - unfold bind at 1. unfold lift_outcome at 1.
    destruct (json geo_resp) as [geo_data|e] eqn:Hgj;
      [|unfold raise; intros H; now apply except_clauses_fail in H].
    unfold ret. intros H. injection H as Hr _.
    exists name, port, proxy_name, resp, data, ip_address, geo_resp.
    exists (dict_get geo_data "country" "-"), (dict_get geo_data "city" "-"),
      (dict_get geo_data "org" "-").
    apply Z.eqb_eq in Hst, Hgst.
    repeat split; auto.
    left. split; [assumption|]. exists geo_data. auto.
  - unfold ret. intros H. injection H as Hr _.
    exists name, port, proxy_name, resp, data, ip_address, geo_resp.
    exists "未知", "未知", "未知".
    apply Z.eqb_eq in Hst. apply Z.eqb_neq in Hgst.
    repeat split; auto.
Qed.

End AttemptOutcomes.

Section AttemptRuns.

Variable net : network.

(** The converse of [attempt_success_inv]: such answers make the attempt
    succeed with that record. *)
Lemma attempt_success_intro (name proxy_name : string) (port : Z) (w : world)
      (resp : response) (data : json_object) (ip_address : string)
      (geo_resp : response) (country city org : string) :
  answer (net (requests_sent w) (primary_request port)) = Ok resp ->
  status_code resp = 200%Z ->
  json resp = Ok data ->
  dict_find data "ip" = Some ip_address ->
  answer (net (S (requests_sent w)) (geo_request ip_address)) = Ok geo_resp ->
  ((status_code geo_resp = 200%Z /\
    exists geo_data, json geo_resp = Ok geo_data /\
      country = dict_get geo_data "country" "-" /\
      city = dict_get geo_data "city" "-" /\
      org = dict_get geo_data "org" "-")
   \/ (status_code geo_resp <> 200%Z /\
       country = "未知" /\ city = "未知" /\ org = "未知")) ->
  fst (test_single_proxy_attempt net
         (ProxyInfo (Some name) (Some port) (Some proxy_name)) w)
  = Ok (update (initial_result name proxy_name port (proxy_url_of port))
          "成功" ip_address country city org
          (format_2f ((clock w + duration (net (requests_sent w) (primary_request port))
                       - clock w) * 1000)%Q),
        true).
Proof.
  intros Hans Hst Hjson Hip Hgeo Hfields.
  rewrite attempt_unfold. unfold try_except, try_body.
  unfold bind at 1. unfold time_time at 1.
  unfold bind at 1. unfold requests_get at 1. cbn [entered clock requests_sent].
  fold (primary_request port). rewrite Hans.
  unfold bind at 1. unfold time_time at 1. cbn [clock].
  rewrite Hst. cbn [Z.eqb Pos.eqb].
  unfold bind at 1. unfold lift_outcome at 1. rewrite Hjson.
  unfold ret at 1. unfold bind at 1. unfold getitem at 1. rewrite Hip.
  unfold ret at 1. unfold bind at 1. unfold requests_get at 1.
  cbn [requests_sent clock attempts stdout]. fold (geo_request ip_address).
  rewrite Hgeo. unfold bind at 1.
  destruct Hfields as [[Hg [geo_data [Hgj [-> [-> ->]]]]] | [Hg [-> [-> ->]]]].
  - rewrite Hg. cbn [Z.eqb Pos.eqb].
    unfold bind at 1. unfold lift_outcome at 1. rewrite Hgj. reflexivity.
  - apply Z.eqb_neq in Hg. rewrite Hg. reflexivity.
Qed.

End AttemptRuns.

(** C9: the latency of a successful attempt is the time the primary
    what-is-my-IP request took, in milliseconds with two decimals; both
    clock readings are taken before the geolocation request is sent, so a
    network that answers alike and differs only in how long the other calls
    (the geolocation call among them) take yields the very same record. *)
Theorem C9_latency_is_primary_round_trip
        (net : network) (info : proxy_info) (w : world) (r : record) (w' : world) :
  test_single_proxy_attempt net info w = (Ok (r, true), w') ->
  r_latency r
  = format_2f (duration (net (requests_sent w)
                           (Request ipify_url (Some (r_url r)) TIMEOUT)) * 1000)%Q
  /\ forall net' : network,
      (forall k q, answer (net' k q) = answer (net k q)) ->
      (forall q, (duration (net' (requests_sent w) q)
                  == duration (net (requests_sent w) q))%Q) ->
      fst (test_single_proxy_attempt net' info w) = Ok (r, true).
Proof.
  intros H.
  destruct (attempt_success_inv net info w r w' H)
    as (name & port & proxy_name & resp & data & ip & geo_resp & country & city & org
        & -> & Hans & Hst & Hjson & Hip & Hgeo & Hfields & ->).
  split.
  - cbn [r_latency r_url update initial_result]. fold (primary_request port).
    apply format_2f_Qeq. ring.
  - intros net' Hsame Hdur.
    rewrite (attempt_success_intro net' name proxy_name port w resp data ip geo_resp
               country city org);
      try (rewrite Hsame; assumption); try assumption.
    do 2 f_equal. unfold update. f_equal.
    apply format_2f_Qeq. rewrite Hdur. reflexivity.
Qed.

(** C10: when the primary request returns without raising and its status
    code is not 200, the attempt returns [success = False] with the record
    exactly as initialised: status "失败" and "-" in the IP, country, city,
    operator and latency fields.  That status is none of the four classified
    ones. *)
Theorem C10_non_200_is_generic_failure
        (net : network) (name proxy_name : string) (port : Z) (w : world)
        (resp : response) :
  answer (net (requests_sent w) (primary_request port)) = Ok resp ->
  status_code resp <> 200%Z ->
  exists r,
    fst (test_single_proxy_attempt net
           (ProxyInfo (Some name) (Some port) (Some proxy_name)) w) = Ok (r, false) /\
    r_status r = "失败" /\
    r_ip r = "-" /\ r_country r = "-" /\ r_city r = "-" /\ r_org r = "-" /\
    r_latency r = "-" /\
    r_status r <> "超时" /\ r_status r <> "代理错误" /\
    (forall kind, r_status r <> "失败: " ++ kind) /\
    (forall kind, r_status r <> "错误: " ++ kind).
Proof.
  intros Hans Hst.
  exists (initial_result name proxy_name port (proxy_url_of port)).
  split.
  - rewrite attempt_unfold. unfold try_except, try_body.
    unfold bind at 1. unfold time_time at 1.
    unfold bind at 1. unfold requests_get at 1. cbn [entered clock requests_sent].
    fold (primary_request port). rewrite Hans.
    unfold bind at 1. unfold time_time at 1.
    apply Z.eqb_neq in Hst. rewrite Hst. reflexivity.
  - cbn [initial_result r_status r_ip r_country r_city r_org r_latency].
    repeat split; try discriminate; intros kind; discriminate.
Qed.


(** ** Concrete runs *)

(** C9 at a concrete run: the primary request takes 0.25 s and the
    geolocation request 5 s; the record says 250.00 ms. *)
Lemma C9_witness :
  test_single_proxy_attempt Scenario.net_success Scenario.info0 Scenario.w0
  = (Ok (Scenario.success_record "成功" "250.00", true),
     snd (test_single_proxy_attempt Scenario.net_success Scenario.info0 Scenario.w0))
  /\ r_latency (Scenario.success_record "成功" "250.00")
     = format_2f ((1 # 4) * 1000)%Q.
Proof.
  assert (H : test_single_proxy_attempt Scenario.net_success Scenario.info0 Scenario.w0
              = (Ok (Scenario.success_record "成功" "250.00", true),
                 snd (test_single_proxy_attempt Scenario.net_success Scenario.info0
                        Scenario.w0))) by (vm_compute; reflexivity).
  split; [exact H|].
  exact (proj1 (C9_latency_is_primary_round_trip _ _ _ _ _ H)).
Defined.

(** C10 at a concrete run: the primary request is answered with 503. *)
Lemma C10_witness :
  exists r,
    fst (test_single_proxy_attempt Scenario.net_unavailable
           (ProxyInfo (Some "mixed0") (Some 42000%Z) (Some "HK-01")) Scenario.w0)
    = Ok (r, false) /\
    r_status r = "失败" /\
    r_ip r = "-" /\ r_country r = "-" /\ r_city r = "-" /\ r_org r = "-" /\
    r_latency r = "-" /\
    r_status r <> "超时" /\ r_status r <> "代理错误" /\
    (forall kind, r_status r <> "失败: " ++ kind) /\
    (forall kind, r_status r <> "错误: " ++ kind).
Proof.
  apply (C10_non_200_is_generic_failure Scenario.net_unavailable "mixed0" "HK-01" 42000
           Scenario.w0 (Response 503 (Raise (Raised.value_error EmptyString)))).
  - reflexivity.
  - simpl. discriminate.
Defined.


(** The four clauses on the exceptions of the library, and a signal that
    is no [Exception]. *)
Example classify_connect_timeout :
  fst (except_clauses (Scenario.failed_record "失败") (Raised.connect_timeout "t") Scenario.w0)
  = Ok (Scenario.failed_record "超时", false).
Proof. reflexivity. Qed.

Example classify_proxy_error :
  fst (except_clauses (Scenario.failed_record "失败") (Raised.proxy_error "p") Scenario.w0)
  = Ok (Scenario.failed_record "代理错误", false).
Proof. reflexivity. Qed.

Example classify_ssl_error :
  fst (except_clauses (Scenario.failed_record "失败") (Raised.ssl_error "s") Scenario.w0)
  = Ok (Scenario.failed_record "失败: SSLError", false).
Proof. reflexivity. Qed.

Example classify_connection_error :
  fst (except_clauses (Scenario.failed_record "失败") (Raised.connection_error "c") Scenario.w0)
  = Ok (Scenario.failed_record "失败: ConnectionError", false).
Proof. reflexivity. Qed.

Example classify_key_error :
  fst (except_clauses (Scenario.failed_record "失败") (Raised.key_error "ip") Scenario.w0)
  = Ok (Scenario.failed_record "错误: KeyError", false).
Proof. reflexivity. Qed.

Example keyboard_interrupt_propagates :
  fst (except_clauses (Scenario.failed_record "失败") Raised.keyboard_interrupt Scenario.w0)
  = Raise Raised.keyboard_interrupt.
Proof. reflexivity. Qed.

(** A geolocation answer with a status other than 200 leaves the attempt
    a success: the three fields read "未知" and the latency is filled in. *)
Lemma geo_status_degrades
      (net : network) (name proxy_name : string) (port : Z) (w : world)
      (resp geo_resp : response) (data : json_object) (ip_address : string) :
  answer (net (requests_sent w) (primary_request port)) = Ok resp ->
  status_code resp = 200%Z ->
  json resp = Ok data ->
  dict_find data "ip" = Some ip_address ->
  answer (net (S (requests_sent w)) (geo_request ip_address)) = Ok geo_resp ->
  status_code geo_resp <> 200%Z ->
  exists r,
    fst (test_single_proxy_attempt net
           (ProxyInfo (Some name) (Some port) (Some proxy_name)) w) = Ok (r, true) /\
    r_status r = "成功" /\ r_ip r = ip_address /\
    r_country r = "未知" /\ r_city r = "未知" /\ r_org r = "未知" /\
    r_latency r <> "-".
Proof.
  intros Hans Hst Hjson Hip Hgeo Hgst.
  eexists. split.
  - apply (attempt_success_intro net name proxy_name port w resp data ip_address geo_resp
             "未知" "未知" "未知"); auto.
  - cbn [update r_status r_ip r_country r_city r_org r_latency].
    repeat split. apply format_2f_populated.
Qed.

(** C1, evaluated where the code departs from it: the first attempt times
    out, the second and the third are refused by the proxy.  The three
    attempts are made (three requests, three calls), the third is
    classified "代理错误", and [test_proxy] returns the record of the first
    attempt, "超时", with the retry suffix. *)
Theorem C1_exhausted_returns_first_attempt :
  let net := Scenario.net_timeout_then_refused in
  fst (test_single_proxy_attempt net Scenario.info0 Scenario.w0)
    = Ok (Scenario.failed_record "超时", false) /\
  (forall now calls out,
     fst (test_single_proxy_attempt net Scenario.info0 (World now 2 calls out))
     = Ok (Scenario.failed_record "代理错误", false)) /\
  fst (test_proxy net Scenario.info0 Scenario.w0)
    = Ok (Scenario.failed_record "超时 (已重试 3 次)") /\
  attempts (snd (test_proxy net Scenario.info0 Scenario.w0)) = 3 /\
  requests_sent (snd (test_proxy net Scenario.info0 Scenario.w0)) = 3.
Proof.
  cbv zeta. split; [vm_compute; reflexivity|].
  split; [|repeat split; vm_compute; reflexivity].
  intros now calls out. reflexivity.
Qed.

(** C2, evaluated where the code departs from it.  When the first attempt
    times out and the second succeeds, the loop stops there (two calls in
    all) and the suffix says 2, the one-based number of the attempt; when all
    three attempts time out the suffix says 3, the value of [MAX_RETRIES]. *)
Theorem C2_retry_suffix_counts_attempts :
  fst (test_proxy Scenario.net_second_succeeds Scenario.info0 Scenario.w0)
    = Ok (Scenario.success_record "成功 (重试 2 次)" "250.00") /\
  attempts (snd (test_proxy Scenario.net_second_succeeds Scenario.info0 Scenario.w0)) = 2 /\
  fst (test_proxy Scenario.net_always_timeout Scenario.info0 Scenario.w0)
    = Ok (Scenario.failed_record "超时 (已重试 3 次)") /\
  attempts (snd (test_proxy Scenario.net_always_timeout Scenario.info0 Scenario.w0)) = 3 /\
  fst (test_proxy Scenario.net_success Scenario.info0 Scenario.w0)
    = Ok (Scenario.success_record "成功" "250.00").
Proof. repeat split; vm_compute; reflexivity. Qed.

(** C4, evaluated where the code departs from it: the primary request is
    answered with status 200 and an IP, the geolocation request raises a
    read timeout.  The exception reaches the [except] clauses of the
    attempt, which returns [success = False] with status "超时" and no
    latency. *)
Theorem C4_geolocation_exception_fails_attempt :
  fst (test_single_proxy_attempt Scenario.net_geo_timeout Scenario.info0 Scenario.w0)
    = Ok (Scenario.failed_record "超时", false) /\
  requests_sent
    (snd (test_single_proxy_attempt Scenario.net_geo_timeout Scenario.info0 Scenario.w0)) = 2.
Proof. split; vm_compute; reflexivity. Qed.

(** ** The collection loop *)

Lemma returned_raised_length (fs : list future) :
  length (returned fs) + length (raised fs) = length fs.
Proof. induction fs as [|[r|e] fs IH]; simpl; lia. Qed.

Lemma returned_perm (fs gs : list future) :
  Permutation fs gs -> Permutation (returned fs) (returned gs).
Proof.
  induction 1 as [| [r|e] fs gs _ IH | [r|e] [r'|e'] fs | fs gs hs _ IH1 _ IH2]; simpl;
    auto using Permutation_refl, perm_skip, perm_swap.
  eapply perm_trans; eassumption.
Qed.

Lemma raised_perm (fs gs : list future) :
  Permutation fs gs -> Permutation (raised fs) (raised gs).
Proof.
  induction 1 as [| [r|e] fs gs _ IH | [r|e] [r'|e'] fs | fs gs hs _ IH1 _ IH2]; simpl;
    auto using Permutation_refl, perm_skip, perm_swap.
  eapply perm_trans; eassumption.
Qed.

(** What the loop leaves behind when it runs to its end: the records of
    the futures that returned, appended in completion order, and one line
    on stderr for each future that raised. *)
Lemma collect_ok (completed : list future) :
  forall results stderr results' stderr',
    collect completed results stderr = Ok (results', stderr') ->
    results' = (results ++ returned completed)%list /\
    length stderr' = length stderr + length (raised completed).
Proof.
  induction completed as [|[r|e] rest IH]; simpl; intros results stderr results' stderr' H.
  - injection H as <- <-. rewrite app_nil_r. split; [reflexivity | lia].
  - apply IH in H as [-> ->]. rewrite <- app_assoc. split; reflexivity.
  - destruct (isinstance e Classes.Exception); [|discriminate].
    apply IH in H as [-> ->]. rewrite length_app. simpl. split; [reflexivity | lia].
Qed.

(** ** Sorting and numbering *)

Lemma port_le_trans : Relations_1.Transitive port_le.
Proof. intros a b c. unfold port_le. lia. Qed.

Lemma insert_row_perm (r : row) (rows : list row) :
  Permutation (r :: rows) (insert_row r rows).
Proof.
  induction rows as [|x rest IH]; simpl; [reflexivity|].
  destruct (r_port (snd r) <=? r_port (snd x))%Z; [reflexivity|].
  rewrite perm_swap. now apply perm_skip.
Qed.

Lemma sort_values_perm (rows : list row) : Permutation rows (sort_values rows).
Proof.
  induction rows as [|r rest IH]; simpl; [constructor|].
  rewrite <- insert_row_perm. now apply perm_skip.
Qed.

Lemma insert_row_sorted (r : row) (rows : list row) :
  Sorted port_le rows -> Sorted port_le (insert_row r rows).
Proof.
  induction rows as [|x rest IH]; simpl; intros Hs.
  - repeat constructor.
  - destruct (r_port (snd r) <=? r_port (snd x))%Z eqn:Hle.
    + constructor; [assumption|]. constructor. unfold port_le. lia.
    + inversion Hs as [|? ? Hrest Hhd]; subst.
      constructor; [now apply IH|].
      destruct rest as [|y rest']; simpl.
      * constructor. unfold port_le. lia.
      * destruct (r_port (snd r) <=? r_port (snd y))%Z.
        -- constructor. unfold port_le. lia.
        -- inversion Hhd; subst. now constructor.
Qed.

Lemma sort_values_ascending (rows : list row) : ascending (sort_values rows).
Proof.
  apply Sorted_StronglySorted; [exact port_le_trans|].
  induction rows as [|r rest IH]; simpl; [constructor|].
  now apply insert_row_sorted.
Qed.

Lemma number_rows_from (start : nat) (rows : list record) :
  map fst (combine (seq start (length rows)) rows) = seq start (length rows) /\
  map snd (combine (seq start (length rows)) rows) = rows.
Proof.
  revert start. induction rows as [|r rest IH]; intros start; simpl; [split; reflexivity|].
  destruct (IH (S start)) as [-> ->]. split; reflexivity.
Qed.

Lemma number_rows_ranks (rows : list record) :
  map fst (number_rows rows) = seq 1 (length rows).
Proof. apply number_rows_from. Qed.

Lemma number_rows_records (rows : list record) : map snd (number_rows rows) = rows.
Proof. apply number_rows_from. Qed.

Lemma number_rows_length (rows : list record) : length (number_rows rows) = length rows.
Proof. rewrite <- (number_rows_records rows) at 2. now rewrite length_map. Qed.

(** Whether rows ascend depends on their records only. *)
Lemma ascending_records (rows rows' : list row) :
  map snd rows = map snd rows' -> ascending rows -> ascending rows'.
Proof.
  unfold ascending. revert rows'.
  induction rows as [|x rest IH]; intros [|y rest'] Heq Hs; try discriminate; [constructor|].
  simpl in Heq. injection Heq as Hxy Hrest.
  inversion Hs as [|? ? Hsrest Hall]; subst.
  constructor; [now apply IH|].
  assert (Hall' : Forall (fun p => (r_port (snd x) <= r_port p)%Z) (map snd rest)).
  { rewrite Forall_map. exact Hall. }
  rewrite Hrest, Forall_map in Hall'.
  unfold port_le. rewrite <- Hxy. exact Hall'.
Qed.

(** In ascending rows a strictly smaller port comes strictly earlier. *)
Lemma ascending_nth (rows : list row) :
  ascending rows ->
  forall i j a b,
    nth_error rows i = Some a -> nth_error rows j = Some b ->
    (r_port (snd a) < r_port (snd b))%Z -> i < j.
Proof.
  induction 1 as [|x rest Hs IH Hall]; intros i j a b Hi Hj Hlt.
  - destruct i; discriminate.
  - destruct i as [|i], j as [|j]; simpl in Hi, Hj.
    + injection Hi as <-. injection Hj as <-. lia.
    + lia.
    + injection Hj as <-. apply nth_error_In in Hi.
      rewrite Forall_forall in Hall. specialize (Hall a Hi). unfold port_le in Hall. lia.
    + apply -> Nat.succ_lt_mono. eapply IH; eassumption.
Qed.

(** ** The status tally *)









Lemma prefix_cons (a b : ascii) (s1 s2 : string) :
  String.prefix (String a s1) (String b s2)
  = if ascii_dec a b then String.prefix s1 s2 else false.
Proof. reflexivity. Qed.

Lemma prefix_empty (s : string) : String.prefix EmptyString s = true.
Proof. destruct s; reflexivity. Qed.



(** ** Runs of [main] *)

Section MainFacts.

Variable nets : nat -> network.
Variable started : nat -> Q.
Variable as_completed : list future -> list future.

Lemma submit_length (proxies : list proxy_info) :
  forall first, length (submit nets started first proxies) = length proxies.
Proof. induction proxies as [|p rest IH]; intros first; simpl; [|rewrite IH]; reflexivity. Qed.

(** A run that reaches the summary collected at least one record, and
    its report is the aggregate of the records of the futures that
    returned, taken in completion order. *)
Lemma main_finished (a : args) (listeners : option (list proxy_info)) (rep : report) :
  main nets started as_completed a listeners = Finished rep ->
  exists ls stderr,
    listeners = Some ls /\
    let proxies := select (num a) ls in
    let completed := as_completed (submit nets started 0 proxies) in
    returned completed <> [] /\
    length stderr = length (raised completed) /\
    rep = aggregate (length proxies) (returned completed) stderr.
Proof.
  unfold main. destruct listeners as [ls|]; [|discriminate].
destruct (threads a <=? 0)%Z; [discriminate|].
  destruct (collect (as_completed (submit nets started 0 (select (num a) ls))) [] [])
    as [[results stderr]|e] eqn:Hc; [|discriminate].
  apply collect_ok in Hc as [Hres Hlen]. simpl in Hres, Hlen. subst results.
  intros H. exists ls, stderr. split; [reflexivity|]. cbv zeta.
  destruct (returned (as_completed (submit nets started 0 (select (num a) ls))))
    as [|r rest] eqn:Hret; [discriminate|].
  split; [discriminate|]. split; [exact Hlen|].
  injection H as <-. reflexivity.
Qed.

End MainFacts.

Lemma aggregate_records (total : nat) (results : list record) (stderr : list string) :
  Permutation (map snd (df (aggregate total results stderr))) results.
Proof.
  cbn [aggregate df]. rewrite number_rows_records.
  rewrite <- (number_rows_records results) at 2.
  apply Permutation_map. symmetry. apply sort_values_perm.
Qed.

Lemma aggregate_length (total : nat) (results : list record) (stderr : list string) :
  length (df (aggregate total results stderr)) = length results.
Proof.
  rewrite <- (Permutation_length (aggregate_records total results stderr)).
  symmetry. apply length_map.
Qed.

Lemma aggregate_ascending (total : nat) (results : list record) (stderr : list string) :
  ascending (df (aggregate total results stderr)).
Proof.
  cbn [aggregate df].
  apply (ascending_records (sort_values (number_rows results))).
  - now rewrite number_rows_records.
  - apply sort_values_ascending.
Qed.

Lemma aggregate_ranks (total : nat) (results : list record) (stderr : list string) :
  map fst (df (aggregate total results stderr))
  = seq 1 (length (df (aggregate total results stderr))).
Proof.
  cbn [aggregate df]. rewrite number_rows_ranks, number_rows_length. reflexivity.
Qed.

(** The rank of the i-th row of a frame numbered 1..N is i + 1. *)
Lemma rank_at (rows : list row) (i : nat) (a : row) :
  map fst rows = seq 1 (length rows) ->
  nth_error rows i = Some a -> fst a = S i.
Proof.
  intros Hranks Hi.
  assert (Hlt : i < length rows) by (apply nth_error_Some; congruence).
  apply (map_nth_error fst) in Hi. rewrite Hranks in Hi.
  apply (nth_error_nth _ _ 0) in Hi. rewrite seq_nth in Hi by assumption. lia.
Qed.

(** ** Whose record a task returns *)

Lemma yields_ret {A} (P : A -> Prop) (a : A) : P a -> yields P (ret a).
Proof. intros H w a' w' E. injection E as <- _. exact H. Qed.

Lemma yields_raise {A} (P : A -> Prop) (e : exn) : yields P (raise e).
Proof. intros w a w' E. discriminate. Qed.

Lemma yields_bind {A B} (Q : A -> Prop) (P : B -> Prop) (m : M A) (k : A -> M B) :
  yields Q m -> (forall a, Q a -> yields P (k a)) -> yields P (bind m k).
Proof.
  intros Hm Hk w b w' E. unfold bind in E.
  destruct (m w) as [[a|e] w1] eqn:Em; [|discriminate].
  exact (Hk a (Hm _ _ _ Em) _ _ _ E).
Qed.

Lemma yields_true {A} (m : M A) : yields (fun _ => True) m.
Proof. intros w a w' _. exact I. Qed.

Lemma yields_try_except {A} (P : A -> Prop) (body : M A) (handler : exn -> M A) :
  yields P body -> (forall e, yields P (handler e)) -> yields P (try_except body handler).
Proof.
  intros Hb Hh w a w' E. unfold try_except in E.
  destruct (body w) as [[a0|e] w1] eqn:Eb.
  - injection E as <- _. exact (Hb _ _ _ Eb).
  - exact (Hh e _ _ _ E).
Qed.

Lemma yields_getitem {A} (key : string) (entry : option A) :
  yields (fun v => entry = Some v) (getitem key entry).
Proof. destruct entry; [now apply yields_ret | apply yields_raise]. Qed.

Section RecordFacts.

Variable net : network.

Lemma try_body_keeps_target (info : proxy_info) (result : record) (proxy_url : string) :
  record_of info result ->
  yields (attempt_of info) (try_body net result proxy_url).
Proof.
  intros Hr. unfold try_body.
  apply (yields_bind (fun _ => True)); [apply yields_true | intros start_time _].
  apply (yields_bind (fun _ => True)); [apply yields_true | intros response _].
  apply (yields_bind (fun _ => True)); [apply yields_true | intros now _].
  destruct (status_code response =? 200)%Z; [|now apply yields_ret].
  apply (yields_bind (fun _ => True)); [apply yields_true | intros data _].
  apply (yields_bind (fun _ => True)); [apply yields_true | intros ip_address _].
  apply (yields_bind (fun _ => True)); [apply yields_true | intros geo_response _].
  apply (yields_bind (fun _ => True)); [apply yields_true | intros [[country city] org] _].
  apply yields_ret. exact Hr.
Qed.

Lemma except_clauses_keep_target (info : proxy_info) (result : record) (e : exn) :
  record_of info result ->
  yields (attempt_of info) (except_clauses result e).
Proof.
  intros Hr. unfold except_clauses.
  repeat match goal with
         | |- yields _ (if ?b then _ else _) => destruct b
         end;
    try apply yields_raise; apply yields_ret; exact Hr.
Qed.

Lemma attempt_keeps_target (info : proxy_info) :
  yields (attempt_of info) (test_single_proxy_attempt net info).
Proof.
  unfold test_single_proxy_attempt.
  apply (yields_bind (fun _ => True)); [apply yields_true | intros _ _].
  eapply yields_bind; [apply yields_getitem | intros name Hname].
  eapply yields_bind; [apply yields_getitem | intros port Hport].
  eapply yields_bind; [apply yields_getitem | intros proxy_name Hproxy].
  assert (Hr : record_of info
                 (initial_result name proxy_name port ("socks5://127.0.0.1:" ++ str_int port)))
    by (repeat split; assumption).
  apply yields_try_except.
  - now apply try_body_keeps_target.
  - intros e. now apply except_clauses_keep_target.
Qed.

Lemma while_retry_keeps_target (info : proxy_info) (retry_count : nat) :
  yields (fun returned => forall r, returned = Some r -> record_of info r)
    (while_retry net info retry_count).
Proof.
  apply (while_retry_elim net
           (fun info retry_count m =>
              yields (fun returned => forall r, returned = Some r -> record_of info r) m)).
  - clear info retry_count. intros info retry_count Hlt IH _. cbv zeta in *.
    apply (yields_bind (fun _ => True)); [apply yields_true | intros u1 _].
    apply (yields_bind (fun _ => True)); [apply yields_true | intros name _].
    apply (yields_bind (fun _ => True)); [apply yields_true | intros port _].
    apply (yields_bind (fun _ => True)); [apply yields_true | intros u2 _].
    eapply yields_bind; [apply attempt_keeps_target | intros [retry_result [|]] Hr].
    + apply yields_ret. intros r [= <-]. exact Hr.
    + intros w. apply (IH u1 name port u2 (retry_result, false) retry_result false w).
  - intros info' retry_count' _ _. apply yields_ret. intros r [= ].
Qed.

(** The record [test_proxy] returns is a record of the listener it was
    called with. *)
Lemma test_proxy_keeps_target (info : proxy_info) :
  yields (record_of info) (test_proxy net info).
Proof.
  unfold test_proxy.
  eapply yields_bind; [apply attempt_keeps_target | intros [result [|]] Hr].
  - now apply yields_ret.
  - eapply yields_bind; [apply while_retry_keeps_target | intros [r|] Hret].
    + apply yields_ret. now apply Hret.
    + apply yields_ret. exact Hr.
Qed.

End RecordFacts.


(** The records of a run that reaches the report are those the tasks
    returned; the tasks that raised left a line on stderr each. *)
Lemma run_records
      (nets : nat -> network) (started : nat -> Q)
      (as_completed : list future -> list future)
      (a : args) (ls : list proxy_info) (rep : report) :
  (forall fs, Permutation fs (as_completed fs)) ->
  main nets started as_completed a (Some ls) = Finished rep ->
  let targets := select (num a) ls in
  let futures := submit nets started 0 targets in
  Permutation (map snd (df rep)) (returned futures) /\
  length (df rep) + length (raised futures) = length targets /\
  length (errors rep) = length (raised futures).
Proof.
  intros Hperm H targets futures.
  destruct (main_finished nets started as_completed a (Some ls) rep H)
    as (ls' & stderr & [= <-] & _ & Hlen & ->).
  fold targets in Hlen |- *. fold futures in Hlen |- *.
  pose proof (Hperm futures) as Hp.
  assert (Hraised : length (raised (as_completed futures)) = length (raised futures)).
  { symmetry. now apply Permutation_length, raised_perm. }
  split; [|split].
  - rewrite aggregate_records. symmetry. now apply returned_perm.
  - rewrite aggregate_length.
    rewrite <- (Permutation_length (returned_perm _ _ Hp)).
    rewrite returned_raised_length. apply submit_length.
  - cbn [aggregate errors]. congruence.
Qed.

(** C8: the frame of every run that reaches the report holds the
    collected records, sorted; its display ranks are exactly 1..N from top to
    bottom, its rows ascend by port, and of two rows with port(A) < port(B)
    the row A stands before the row B and has the strictly smaller rank. *)
Theorem C8_ranks_follow_ports
        (nets : nat -> network) (started : nat -> Q)
        (as_completed : list future -> list future)
        (a : args) (ls : list proxy_info) (rep : report) :
  main nets started as_completed a (Some ls) = Finished rep ->
  Permutation (map snd (df rep))
    (returned (as_completed (submit nets started 0 (select (num a) ls)))) /\
  map fst (df rep) = seq 1 (length (df rep)) /\
  ascending (df rep) /\
  forall i j A B,
    nth_error (df rep) i = Some A -> nth_error (df rep) j = Some B ->
    (r_port (snd A) < r_port (snd B))%Z ->
    i < j /\ fst A < fst B.
Proof.
  intros H.
  destruct (main_finished nets started as_completed a (Some ls) rep H)
    as (ls' & stderr & [= <-] & _ & _ & ->).
  split; [apply aggregate_records|].
  split; [apply aggregate_ranks|]. split; [apply aggregate_ascending|].
  intros i j A B Hi Hj Hlt.
  assert (Hij : i < j)
    by (eapply ascending_nth; [apply aggregate_ascending | eassumption ..]).
  split; [exact Hij|].
  rewrite (rank_at _ _ _ (aggregate_ranks _ _ _) Hi).
  rewrite (rank_at _ _ _ (aggregate_ranks _ _ _) Hj). lia.
Qed.

(** C8 at a concrete run: three listeners on ports 42002, 42000, 42001
    whose futures complete last first. *)
Lemma C8_witness :
  let rep := report_of (main Fleet.nets Fleet.started Fleet.last_first Fleet.cli
                          (Some Fleet.targets)) in
  map (fun row => (fst row, r_port (snd row))) (df rep)
  = [(1, 42000%Z); (2, 42001%Z); (3, 42002%Z)] /\
  map fst (df rep) = seq 1 (length (df rep)) /\
  ascending (df rep) /\
  forall i j A B,
    nth_error (df rep) i = Some A -> nth_error (df rep) j = Some B ->
    (r_port (snd A) < r_port (snd B))%Z ->
    i < j /\ fst A < fst B.
Proof.
  cbv zeta. split; [vm_compute; reflexivity|].
  apply (C8_ranks_follow_ports Fleet.nets Fleet.started Fleet.last_first Fleet.cli
           Fleet.targets).
  vm_compute. reflexivity.
Defined.




(** ** The statuses of the records *)

Section StatusFacts.

Variable net : network.






End StatusFacts.






(** * Further properties *)

(** ** Requests sent *)

Lemma sends_ret {A} (a : A) : sends_at_most 0 (ret a).
Proof. intros w; simpl; lia. Qed.

Lemma sends_raise {A} (e : exn) : sends_at_most 0 (@raise A e).
Proof. intros w; simpl; lia. Qed.

Lemma sends_weaken {A} (n n' : nat) (m : M A) :
  n <= n' -> sends_at_most n m -> sends_at_most n' m.
Proof. intros Hn H w. specialize (H w). lia. Qed.

Lemma sends_bind {A B} (n1 n2 : nat) (m : M A) (k : A -> M B) :
  sends_at_most n1 m -> (forall a, sends_at_most n2 (k a)) ->
  sends_at_most (n1 + n2) (bind m k).
Proof.
  intros Hm Hk w. unfold bind. specialize (Hm w).
  destruct (m w) as [[a|e] w']; simpl in *.
  - specialize (Hk a w'). lia.
  - lia.
Qed.

Lemma sends_bind0 {A B} (n : nat) (m : M A) (k : A -> M B) :
  sends_at_most 0 m -> (forall a, sends_at_most n (k a)) ->
  sends_at_most n (bind m k).
Proof. intros Hm Hk. change n with (0 + n). now apply sends_bind. Qed.

Lemma sends_try_except {A} (n : nat) (body : M A) (handler : exn -> M A) :
  sends_at_most n body -> (forall e, sends_at_most 0 (handler e)) ->
  sends_at_most n (try_except body handler).
Proof.
  intros Hb Hh w. unfold try_except. specialize (Hb w).
  destruct (body w) as [[a|e] w']; simpl in *; [exact Hb|].
  specialize (Hh e w'). lia.
Qed.

Lemma sends_getitem {A} (key : string) (entry : option A) :
  sends_at_most 0 (getitem key entry).
Proof. destruct entry; [apply sends_ret | apply sends_raise]. Qed.

Lemma sends_lift_outcome {A} (o : outcome A) : sends_at_most 0 (lift_outcome o).
Proof. destruct o; [apply sends_ret | apply sends_raise]. Qed.

Lemma sends_time_time : sends_at_most 0 time_time.
Proof. intros w; simpl; lia. Qed.

Lemma sends_time_sleep (s : Q) : sends_at_most 0 (time_sleep s).
Proof. intros w; simpl; lia. Qed.

Lemma sends_print (line : string) : sends_at_most 0 (print line).
Proof. intros w; simpl; lia. Qed.

Lemma sends_enter_attempt : sends_at_most 0 enter_attempt.
Proof. intros w; simpl; lia. Qed.

Lemma sends_requests_get (net : network) (u : string) (via : option string) (t : Z) :
  sends_at_most 1 (requests_get net u via t).
Proof. intros w; simpl; lia. Qed.

Section RequestFacts.

Variable net : network.

Lemma sends_try_body (result : record) (proxy_url : string) :
  sends_at_most 2 (try_body net result proxy_url).
Proof.
  unfold try_body.
  apply sends_bind0; [apply sends_time_time | intros start_time].
  apply (sends_bind 1 1); [apply sends_requests_get | intros response].
  apply sends_bind0; [apply sends_time_time | intros now].
  destruct (status_code response =? 200)%Z;
    [|apply sends_weaken with (n := 0); [lia | apply sends_ret]].
  apply sends_bind0; [apply sends_lift_outcome | intros data].
  apply sends_bind0; [apply sends_getitem | intros ip_address].
  change 1 with (1 + 0).
  apply sends_bind; [apply sends_requests_get | intros geo_response].
  apply sends_bind0.
  - destruct (status_code geo_response =? 200)%Z; [|apply sends_ret].
    apply sends_bind0; [apply sends_lift_outcome | intros geo_data; apply sends_ret].
  - intros [[country city] org]. apply sends_ret.
Qed.

Lemma sends_except_clauses (result : record) (e : exn) :
  sends_at_most 0 (except_clauses result e).
Proof.
  unfold except_clauses.
  repeat match goal with
         | |- sends_at_most _ (if ?b then _ else _) => destruct b
         end;
    try apply sends_raise; apply sends_ret.
Qed.

Lemma sends_attempt (info : proxy_info) :
  sends_at_most 2 (test_single_proxy_attempt net info).
Proof.
  unfold test_single_proxy_attempt.
  apply sends_bind0; [apply sends_enter_attempt | intros _].
  apply sends_bind0; [apply sends_getitem | intros name].
  apply sends_bind0; [apply sends_getitem | intros port].
  apply sends_bind0; [apply sends_getitem | intros proxy_name].
  apply sends_try_except; [apply sends_try_body | apply sends_except_clauses].
Qed.

Lemma sends_while_retry (info : proxy_info) (retry_count : nat) :
  sends_at_most (2 * (MAX_RETRIES - retry_count)) (while_retry net info retry_count).
Proof.
  apply (while_retry_elim net
           (fun info retry_count m =>
              sends_at_most (2 * (MAX_RETRIES - retry_count)) m)).
  - clear info retry_count. intros info retry_count Hlt IH _. cbv zeta in *.
    apply sends_bind0; [apply sends_time_sleep | intros u1].
    apply sends_bind0; [apply sends_getitem | intros name].
    apply sends_bind0; [apply sends_getitem | intros port].
    apply sends_bind0; [apply sends_print | intros u2].
    apply sends_weaken with (n := 2 + 2 * (MAX_RETRIES - (retry_count + 1))); [lia|].
    apply sends_bind; [apply sends_attempt|].
    intros [retry_result [|]].
    + apply sends_weaken with (n := 0); [lia | apply sends_ret].
    + intros w. apply (IH u1 name port u2 (retry_result, false) retry_result false w).
  - intros info' retry_count' _ _.
    apply sends_weaken with (n := 0); [lia | apply sends_ret].
Qed.

Lemma sends_test_proxy (info : proxy_info) :
  sends_at_most (2 * MAX_RETRIES) (test_proxy net info).
Proof.
  unfold test_proxy.
  change (2 * MAX_RETRIES) with (2 + 2 * (MAX_RETRIES - 1)).
  apply sends_bind; [apply sends_attempt|].
  intros [result [|]].
  - apply sends_weaken with (n := 0); [lia | apply sends_ret].
  - change (2 * (MAX_RETRIES - 1)) with (2 * (MAX_RETRIES - 1) + 0).
    apply sends_bind; [apply sends_while_retry|].
    intros [r|]; apply sends_ret.
Qed.

End RequestFacts.

(** X1: one attempt sends at most two requests and one run of
    [test_proxy] at most six, whatever the network answers and whether the
    run returns or raises. *)
Theorem X1_requests_bounded (net : network) (info : proxy_info) (w : world) :
  requests_sent (snd (test_single_proxy_attempt net info w)) <= requests_sent w + 2 /\
  requests_sent (snd (test_proxy net info w)) <= requests_sent w + 6.
Proof.
  split.
  - apply (sends_attempt net info w).
  - apply (sends_test_proxy net info w).
Qed.

(** ** The shape of the records *)



Section ShapeFacts.

Variable net : network.






End ShapeFacts.





(** ** The course of [test_proxy] *)

Section CourseFacts.

Variable net : network.

(** One turn of the loop: sleep, print, attempt. *)
Lemma while_retry_step (name proxy_name : string) (port : Z) (retry_count : nat)
      (w : world) :
  retry_count < MAX_RETRIES ->
  while_retry net (ProxyInfo (Some name) (Some port) (Some proxy_name)) retry_count w
  = match test_single_proxy_attempt net
            (ProxyInfo (Some name) (Some port) (Some proxy_name))
            (before_retry name port (retry_count + 1) w) with
    | (Ok (retry_result, true), w') =>
        (Ok (Some (set_status retry_result
                     (r_status retry_result ++ " (重试 "
                        ++ str_nat (retry_count + 1) ++ " 次)"))), w')
    | (Ok (retry_result, false), w') =>
        while_retry net (ProxyInfo (Some name) (Some port) (Some proxy_name))
          (retry_count + 1) w'
    | (Raise e, w') => (Raise e, w')
    end.
Proof.
  intros Hlt. rewrite while_retry_equation_1. unfold while_retry_unfold_clause_1.
  destruct (lt_dec retry_count MAX_RETRIES) as [_|Hge]; [|contradiction].
  cbv zeta.
  transitivity
    (bind (test_single_proxy_attempt net
             (ProxyInfo (Some name) (Some port) (Some proxy_name)))
       (fun attempt =>
          let '(retry_result, retry_success) := attempt in
          if retry_success : bool
          then ret (Some (set_status retry_result
                            (r_status retry_result ++ " (重试 "
                               ++ str_nat (retry_count + 1) ++ " 次)")))
          else while_retry net (ProxyInfo (Some name) (Some port) (Some proxy_name))
                 (retry_count + 1))
       (before_retry name port (retry_count + 1) w)); [reflexivity|].
  unfold bind.
  destruct (test_single_proxy_attempt net _ (before_retry name port (retry_count + 1) w))
    as [[[retry_result [|]]|e] w']; reflexivity.
Qed.

Lemma while_retry_done (info : proxy_info) (retry_count : nat) (w : world) :
  MAX_RETRIES <= retry_count -> while_retry net info retry_count w = (Ok None, w).
Proof.
  intros Hge. rewrite while_retry_equation_1. unfold while_retry_unfold_clause_1.
  destruct (lt_dec retry_count MAX_RETRIES) as [Hlt|_]; [lia | reflexivity].
Qed.

(** An exception that leaves an attempt leaves [test_proxy] at once. *)
Lemma test_proxy_raise_first (info : proxy_info) (w w' : world) (e : exn) :
  test_single_proxy_attempt net info w = (Raise e, w') ->
  test_proxy net info w = (Raise e, w').
Proof. intros H. unfold test_proxy, bind. now rewrite H. Qed.

End CourseFacts.

(** X4: a listener entry that lacks its name, port or proxy key makes
    [test_proxy] raise the [KeyError] of the first missing key from its first
    attempt: the attempt is counted, no request is sent, nothing is printed,
    no time passes and no retry is made. *)
Theorem X4_missing_key_is_not_retried (net : network) (info : proxy_info) (w : world) :
  listener_name info = None \/ listener_port info = None \/ listener_proxy info = None ->
  exists key,
    test_proxy net info w
    = (Raise (Raised.key_error key),
       World (clock w) (requests_sent w) (S (attempts w)) (stdout w)) /\
    key = match listener_name info, listener_port info with
          | None, _ => "name"
          | Some _, None => "port"
          | Some _, Some _ => "proxy"
          end.
Proof.
  intros Hmissing.
  assert (H : exists key,
             test_single_proxy_attempt net info w = (Raise (Raised.key_error key), entered w) /\
             key = match listener_name info, listener_port info with
                   | None, _ => "name"
                   | Some _, None => "port"
                   | Some _, Some _ => "proxy"
                   end).
  { unfold test_single_proxy_attempt, bind, enter_attempt, getitem, ret, raise.
    fold (entered w).
    destruct (listener_name info); [|exists "name"; split; reflexivity].
    destruct (listener_port info); [|exists "port"; split; reflexivity].
    destruct (listener_proxy info); [|exists "proxy"; split; reflexivity].
    destruct Hmissing as [H|[H|H]]; discriminate. }
  destruct H as (key & Hk & Hkey). exists key. split; [|exact Hkey].
  now apply test_proxy_raise_first.
Qed.

Lemma X4_witness :
  exists key,
    test_proxy Scenario.net_success Fleet.no_upstream Scenario.w0
    = (Raise (Raised.key_error key),
       World (clock Scenario.w0) (requests_sent Scenario.w0)
             (S (attempts Scenario.w0)) (stdout Scenario.w0)) /\
    key = match listener_name Fleet.no_upstream, listener_port Fleet.no_upstream with
          | None, _ => "name"
          | Some _, None => "port"
          | Some _, Some _ => "proxy"
          end.
Proof.
  apply (X4_missing_key_is_not_retried Scenario.net_success Fleet.no_upstream Scenario.w0).
  right; right. reflexivity.
Defined.

(** X5: when three attempts in a row fail, each retry starting one second
    after the previous attempt ended and after one line was printed,
    [test_proxy] returns the record of the first of them with
    " (已重试 3 次)" appended to its status, in the world the third attempt
    ended in; the records of the second and third attempts are dropped. *)
Theorem X5_exhausted_returns_first_record
        (net : network) (name proxy_name : string) (port : Z)
        (w w1 w2 w3 : world) (r1 r2 r3 : record) :
  let info := ProxyInfo (Some name) (Some port) (Some proxy_name) in
  test_single_proxy_attempt net info w = (Ok (r1, false), w1) ->
  test_single_proxy_attempt net info (before_retry name port 2 w1) = (Ok (r2, false), w2) ->
  test_single_proxy_attempt net info (before_retry name port 3 w2) = (Ok (r3, false), w3) ->
  test_proxy net info w
  = (Ok (set_status r1 (r_status r1 ++ " (已重试 3 次)")), w3).
Proof.
  intros info H1 H2 H3. subst info.
  unfold test_proxy. unfold bind at 1. rewrite H1. unfold bind at 1.
  rewrite while_retry_step by (unfold MAX_RETRIES; lia).
  change (1 + 1) with 2. rewrite H2.
  rewrite while_retry_step by (unfold MAX_RETRIES; lia).
  change (2 + 1) with 3. rewrite H3.
  rewrite while_retry_done by (unfold MAX_RETRIES; lia).
  reflexivity.
Qed.

Lemma X5_witness :
  test_proxy Scenario.net_timeout_then_refused
    (ProxyInfo (Some "mixed0") (Some 42000%Z) (Some "HK-01")) Scenario.w0
  = (Ok (set_status (Scenario.failed_record "超时")
           (r_status (Scenario.failed_record "超时") ++ " (已重试 3 次)")),
     snd (test_proxy Scenario.net_timeout_then_refused
            (ProxyInfo (Some "mixed0") (Some 42000%Z) (Some "HK-01")) Scenario.w0)).
Proof.
  apply (X5_exhausted_returns_first_record Scenario.net_timeout_then_refused
           "mixed0" "HK-01" 42000 Scenario.w0
           (snd (test_single_proxy_attempt Scenario.net_timeout_then_refused
                   Scenario.info0 Scenario.w0))
           (snd (test_single_proxy_attempt Scenario.net_timeout_then_refused
                   Scenario.info0
                   (before_retry "mixed0" 42000 2
                      (snd (test_single_proxy_attempt Scenario.net_timeout_then_refused
                              Scenario.info0 Scenario.w0)))))
           _ (Scenario.failed_record "超时") (Scenario.failed_record "代理错误")
           (Scenario.failed_record "代理错误"));
    vm_compute; reflexivity.
Defined.

(** X6: when the first attempt fails and a retry succeeds, [test_proxy]
    returns the record of that retry, marked " (重试 2 次)" when it is the
    second attempt and " (重试 3 次)" when it is the third, in the world that
    attempt ended in: nothing is attempted after a success. *)
Theorem X6_retry_success_is_returned
        (net : network) (name proxy_name : string) (port : Z)
        (w w1 w2 : world) (r1 r2 : record) (second : bool) :
  let info := ProxyInfo (Some name) (Some port) (Some proxy_name) in
  test_single_proxy_attempt net info w = (Ok (r1, false), w1) ->
  test_single_proxy_attempt net info (before_retry name port 2 w1) = (Ok (r2, second), w2) ->
  (second = true ->
   test_proxy net info w = (Ok (set_status r2 (r_status r2 ++ " (重试 2 次)")), w2)) /\
  (second = false ->
   forall r3 w3,
     test_single_proxy_attempt net info (before_retry name port 3 w2) = (Ok (r3, true), w3) ->
     test_proxy net info w = (Ok (set_status r3 (r_status r3 ++ " (重试 3 次)")), w3)).
Proof.
  intros info H1 H2. subst info.
  assert (Hstart : test_proxy net (ProxyInfo (Some name) (Some port) (Some proxy_name)) w
                   = match while_retry net (ProxyInfo (Some name) (Some port) (Some proxy_name))
                             1 w1 with
                     | (Ok (Some retry_result), w') => (Ok retry_result, w')
                     | (Ok None, w') =>
                         (Ok (set_status r1 (r_status r1 ++ " (已重试 3 次)")), w')
                     | (Raise e, w') => (Raise e, w')
                     end).
  { unfold test_proxy. unfold bind at 1. rewrite H1. unfold bind.
    destruct (while_retry net _ 1 w1) as [[[r|]|e] w']; reflexivity. }
  rewrite Hstart. rewrite while_retry_step by (unfold MAX_RETRIES; lia).
  change (1 + 1) with 2. rewrite H2.
  split; intros ->.
  - reflexivity.
  - intros r3 w3 H3. rewrite while_retry_step by (unfold MAX_RETRIES; lia).
    change (2 + 1) with 3. rewrite H3. reflexivity.
Qed.

Lemma X6_witness :
  (true = true ->
   test_proxy Scenario.net_second_succeeds
     (ProxyInfo (Some "mixed0") (Some 42000%Z) (Some "HK-01")) Scenario.w0
   = (Ok (set_status (Scenario.success_record "成功" "250.00")
            (r_status (Scenario.success_record "成功" "250.00") ++ " (重试 2 次)")),
      snd (test_proxy Scenario.net_second_succeeds Scenario.info0 Scenario.w0))) /\
  (true = false ->
   forall r3 w3,
     test_single_proxy_attempt Scenario.net_second_succeeds
       (ProxyInfo (Some "mixed0") (Some 42000%Z) (Some "HK-01"))
       (before_retry "mixed0" 42000 3
          (snd (test_proxy Scenario.net_second_succeeds Scenario.info0 Scenario.w0)))
     = (Ok (r3, true), w3) ->
     test_proxy Scenario.net_second_succeeds
       (ProxyInfo (Some "mixed0") (Some 42000%Z) (Some "HK-01")) Scenario.w0
     = (Ok (set_status r3 (r_status r3 ++ " (重试 3 次)")), w3)).
Proof.
  apply (X6_retry_success_is_returned Scenario.net_second_succeeds
           "mixed0" "HK-01" 42000 Scenario.w0
           (snd (test_single_proxy_attempt Scenario.net_second_succeeds
                   Scenario.info0 Scenario.w0))
           _ (Scenario.failed_record "超时"));
    vm_compute; reflexivity.
Defined.

(** ** The selection of targets *)

(** What [select] keeps. *)
Lemma select_eq (num : Z) (listeners : list proxy_info) :
  select num listeners
  = if (0 <? num)%Z then firstn (Z.to_nat num) listeners else listeners.
Proof.
  unfold select. destruct (0 <? num)%Z eqn:Hpos; cbn [andb]; [|reflexivity].
  destruct (num <? Z.of_nat (length listeners))%Z eqn:Hlt; [reflexivity|].
  symmetry. apply firstn_all2. apply Z.ltb_ge in Hlt. lia.
Qed.

Lemma select_rest (num : Z) (listeners : list proxy_info) :
  exists rest, listeners = (select num listeners ++ rest)%list.
Proof.
  rewrite select_eq. destruct (0 <? num)%Z.
  - exists (skipn (Z.to_nat num) listeners). symmetry. apply firstn_skipn.
  - exists []. now rewrite app_nil_r.
Qed.

(** X7: [-n] caps the targets: a positive [num] keeps the first [num]
    listeners, all of them when there are no more than [num], and a zero or
    negative [num] keeps all; what is kept is always a prefix of the
    configured list. *)
Theorem X7_select_is_capped_prefix (num : Z) (listeners : list proxy_info) :
  select num listeners
  = (if (0 <? num)%Z then firstn (Z.to_nat num) listeners else listeners) /\
  length (select num listeners)
  = (if (0 <? num)%Z then Nat.min (Z.to_nat num) (length listeners)
     else length listeners) /\
  exists rest, listeners = (select num listeners ++ rest)%list.
Proof.
  split; [apply select_eq|]. split; [|apply select_rest].
  rewrite select_eq. destruct (0 <? num)%Z; [apply length_firstn | reflexivity].
Qed.

(** ** What [main] ends in *)

Lemma collect_errors (completed : list future) :
  forall results stderr results' stderr',
    collect completed results stderr = Ok (results', stderr') ->
    stderr' = (stderr ++ map task_error_line (raised completed))%list.
Proof.
  induction completed as [|[r|e] rest IH]; simpl; intros results stderr results' stderr' H.
  - injection H as _ <-. now rewrite app_nil_r.
  - now apply IH in H.
  - destruct (isinstance e Classes.Exception); [|discriminate].
    apply IH in H. rewrite H, <- app_assoc. reflexivity.
Qed.

Lemma collect_total (completed : list future) :
  Forall (fun e => isinstance e Classes.Exception = true) (raised completed) ->
  forall results stderr,
    collect completed results stderr
    = Ok ((results ++ returned completed)%list,
          (stderr ++ map task_error_line (raised completed))%list).
Proof.
  induction completed as [|[r|e] rest IH]; simpl; intros Hall results stderr.
  - now rewrite !app_nil_r.
  - rewrite IH by assumption. now rewrite <- app_assoc.
  - inversion Hall as [|? ? He Hrest]; subst. rewrite He.
    rewrite IH by assumption. now rewrite <- app_assoc.
Qed.

Lemma main_collected
      (nets : nat -> network) (started : nat -> Q)
      (as_completed : list future -> list future)
      (a : args) (ls : list proxy_info) :
  (0 < threads a)%Z ->
  let completed := as_completed (submit nets started 0 (select (num a) ls)) in
  Forall (fun e => isinstance e Classes.Exception = true) (raised completed) ->
  main nets started as_completed a (Some ls)
  = match returned completed with
    | [] => SysExit 1 (map task_error_line (raised completed) ++ ["没有测试结果"])
    | _ :: _ =>
        Finished (aggregate (length (select (num a) ls)) (returned completed)
                    (map task_error_line (raised completed)))
    end.
Proof.
  intros Hthreads completed Hall. unfold main.
  apply Z.ltb_lt in Hthreads. rewrite Z.leb_antisym, Hthreads. cbn [negb].
  fold completed. rewrite (collect_total completed Hall [] []). cbn [app].
  destruct (returned completed); reflexivity.
Qed.

(** A run in which some task returned reaches the report. *)
Lemma main_reaches_report
      (nets : nat -> network) (started : nat -> Q)
      (as_completed : list future -> list future)
      (a : args) (ls : list proxy_info) :
  (forall fs, Permutation fs (as_completed fs)) ->
  (0 < threads a)%Z ->
  let futures := submit nets started 0 (select (num a) ls) in
  Forall (fun e => isinstance e Classes.Exception = true) (raised futures) ->
  returned futures <> [] ->
  exists rep, main nets started as_completed a (Some ls) = Finished rep.
Proof.
  intros Hperm Hthreads futures Hall Hsome.
  pose proof (Hperm futures) as Hp.
  assert (Hall' : Forall (fun e => isinstance e Classes.Exception = true)
                    (raised (as_completed futures))).
  { rewrite Forall_forall in Hall |- *. intros e He. apply Hall.
    eapply Permutation_in; [symmetry; apply raised_perm; exact Hp | exact He]. }
  rewrite (main_collected nets started as_completed a ls Hthreads Hall').
  fold futures.
  destruct (returned (as_completed futures)) as [|r rest] eqn:E.
  - exfalso. apply Hsome. apply Permutation_nil. rewrite <- E. now apply returned_perm.
  - eexists. reflexivity.
Qed.

(** X8: with a positive number of worker threads and tasks that raise
    nothing but [Exception]s, [main] ends in exactly one of two ways: when no
    task returned a record (an empty target list among the cases) it exits
    with status 1 after the line "没有测试结果", preceded on stderr by one
    line per task that raised; otherwise it reaches the report. *)
Theorem X8_main_exits_iff_no_record
        (nets : nat -> network) (started : nat -> Q)
        (as_completed : list future -> list future)
        (a : args) (ls : list proxy_info) :
  (forall fs, Permutation fs (as_completed fs)) ->
  (0 < threads a)%Z ->
  let futures := submit nets started 0 (select (num a) ls) in
  Forall (fun e => isinstance e Classes.Exception = true) (raised futures) ->
  (returned futures = [] ->
   exists stderr,
     main nets started as_completed a (Some ls) = SysExit 1 (stderr ++ ["没有测试结果"]) /\
     length stderr = length futures) /\
  (returned futures <> [] ->
   exists rep, main nets started as_completed a (Some ls) = Finished rep).
Proof.
  intros Hperm Hthreads futures Hall.
  pose proof (Hperm futures) as Hp.
  assert (Hall' : Forall (fun e => isinstance e Classes.Exception = true)
                    (raised (as_completed futures))).
  { rewrite Forall_forall in Hall |- *. intros e He. apply Hall.
    eapply Permutation_in; [symmetry; apply raised_perm; exact Hp | exact He]. }
  rewrite (main_collected nets started as_completed a ls Hthreads Hall').
  fold futures. split.
  - intros Hnone.
    assert (Hnone' : returned (as_completed futures) = []).
    { apply Permutation_nil. rewrite <- Hnone. symmetry. now apply returned_perm. }
    rewrite Hnone'. eexists. split; [reflexivity|].
    rewrite length_map.
    pose proof (returned_raised_length (as_completed futures)) as Hlen.
    rewrite Hnone' in Hlen. cbn [length plus] in Hlen. rewrite Hlen.
    symmetry. now apply Permutation_length.
  - intros Hsome.
    destruct (returned (as_completed futures)) as [|r rest] eqn:E.
    + exfalso. apply Hsome. apply Permutation_nil. rewrite <- E. now apply returned_perm.
    + eexists. reflexivity.
Qed.

Lemma X8_witness :
  let futures := submit Fleet.nets Fleet.started 0 (select (num Fleet.cli) [Fleet.no_upstream]) in
  (returned futures = [] ->
   exists stderr,
     main Fleet.nets Fleet.started Fleet.last_first Fleet.cli (Some [Fleet.no_upstream])
     = SysExit 1 (stderr ++ ["没有测试结果"]) /\
     length stderr = length futures) /\
  (returned futures <> [] ->
   exists rep,
     main Fleet.nets Fleet.started Fleet.last_first Fleet.cli (Some [Fleet.no_upstream])
     = Finished rep).
Proof.
  cbv zeta.
  apply (X8_main_exits_iff_no_record Fleet.nets Fleet.started Fleet.last_first Fleet.cli
           [Fleet.no_upstream]).
  - intros fs. apply Permutation_rev.
  - reflexivity.
  - vm_compute. repeat constructor.
Defined.

(** ** The report does not depend on the completion order *)

Lemma ascending_ports (rows : list row) : ascending rows -> ports_ascend (map snd rows).
Proof.
  unfold ascending, ports_ascend. induction 1 as [|x rest Hs IH Hall]; simpl; constructor.
  - exact IH.
  - rewrite Forall_map. exact Hall.
Qed.

Lemma same_port_same_record (rows : list record) (x y : record) :
  NoDup (map r_port rows) -> In x rows -> In y rows -> r_port x = r_port y -> x = y.
Proof.
  induction rows as [|r rest IH]; simpl; intros Hnd Hx Hy Hp; [contradiction|].
  inversion Hnd as [|? ? Hnotin Hnd']; subst.
  destruct Hx as [<-|Hx], Hy as [<-|Hy]; auto.
  - exfalso. apply Hnotin. rewrite Hp. now apply in_map.
  - exfalso. apply Hnotin. rewrite <- Hp. now apply in_map.
Qed.

(** Two ascending arrangements of the same records with pairwise distinct
    ports are the same list. *)
Lemma ports_ascend_unique (l1 : list record) :
  forall l2,
    Permutation l1 l2 -> NoDup (map r_port l1) ->
    ports_ascend l1 -> ports_ascend l2 -> l1 = l2.
Proof.
  unfold ports_ascend.
  induction l1 as [|x rest IH]; intros l2 Hperm Hnd Hs1 Hs2.
  - apply Permutation_nil in Hperm. now subst.
  - destruct l2 as [|y rest2]; [apply Permutation_sym, Permutation_nil in Hperm; discriminate|].
    inversion Hs1 as [|? ? Hs1' Hall1]; subst.
    inversion Hs2 as [|? ? Hs2' Hall2]; subst.
    assert (Hxy : x = y).
    { assert (Hy : In y (x :: rest))
        by (eapply Permutation_in; [symmetry; exact Hperm | now left]).
      assert (Hx : In x (y :: rest2))
        by (eapply Permutation_in; [exact Hperm | now left]).
      apply (same_port_same_record (x :: rest)); [assumption | now left | assumption |].
      rewrite Forall_forall in Hall1, Hall2.
      destruct Hy as [Hy|Hy]; [now subst|].
      destruct Hx as [Hx|Hx]; [now subst|].
      specialize (Hall1 y Hy). specialize (Hall2 x Hx). lia. }
    subst y. f_equal. apply IH; try assumption.
    + eapply Permutation_cons_inv. exact Hperm.
    + simpl in Hnd. now inversion Hnd.
Qed.

Lemma aggregate_same_frame (total : nat) (results1 results2 : list record)
      (stderr1 stderr2 : list string) :
  Permutation results1 results2 -> NoDup (map r_port results1) ->
  let rep1 := aggregate total results1 stderr1 in
  let rep2 := aggregate total results2 stderr2 in
  df rep1 = df rep2 /\ status_counts rep1 = status_counts rep2 /\
  success_count rep1 = success_count rep2 /\ summary rep1 = summary rep2.
Proof.
  intros Hperm Hnd rep1 rep2. subst rep1 rep2.
  assert (Hrec : map snd (df (aggregate total results1 stderr1))
                 = map snd (df (aggregate total results2 stderr2))).
  { apply ports_ascend_unique.
    - rewrite !aggregate_records. exact Hperm.
    - eapply Permutation_NoDup; [|exact Hnd].
      apply Permutation_map. symmetry. apply aggregate_records.
    - apply ascending_ports, aggregate_ascending.
    - apply ascending_ports, aggregate_ascending. }
  assert (Hdf : df (aggregate total results1 stderr1)
                = df (aggregate total results2 stderr2)).
  { cbn [aggregate df] in *. rewrite !number_rows_records in Hrec. now rewrite Hrec. }
  unfold aggregate in *. cbn [df status_counts success_count summary] in *.
  rewrite Hdf. repeat split; reflexivity.
Qed.

(** X9: when the records of a run have pairwise distinct ports, the order
    in which the futures complete does not show in the report: two runs of
    [main] on the same tasks that differ only in that order write the same
    frame, tally and summary, and their stderr lines are the same up to
    order. *)
Theorem X9_report_independent_of_completion_order
        (nets : nat -> network) (started : nat -> Q)
        (earlier later : list future -> list future)
        (a : args) (ls : list proxy_info) (rep1 rep2 : report) :
  (forall fs, Permutation fs (earlier fs)) ->
  (forall fs, Permutation fs (later fs)) ->
  NoDup (map r_port (returned (submit nets started 0 (select (num a) ls)))) ->
  main nets started earlier a (Some ls) = Finished rep1 ->
  main nets started later a (Some ls) = Finished rep2 ->
  df rep1 = df rep2 /\ status_counts rep1 = status_counts rep2 /\
  success_count rep1 = success_count rep2 /\ summary rep1 = summary rep2 /\
  Permutation (errors rep1) (errors rep2).
Proof.
  intros Hp1 Hp2 Hnd H1 H2.
  set (futures := submit nets started 0 (select (num a) ls)) in *.
  assert (Hinv : forall ac rep,
             main nets started ac a (Some ls) = Finished rep ->
             exists stderr,
               collect (ac futures) [] [] = Ok (returned (ac futures), stderr) /\
               rep = aggregate (length (select (num a) ls)) (returned (ac futures)) stderr).
  { intros ac rep H. unfold main in H.
    destruct (threads a <=? 0)%Z; [discriminate|]. fold futures in H.
    destruct (collect (ac futures) [] []) as [[results stderr]|e] eqn:Hc; [|discriminate].
    pose proof (collect_ok _ _ _ _ _ Hc) as [Hres _]. simpl in Hres. subst results.
    exists stderr. split; [reflexivity|].
    destruct (returned (ac futures)); [discriminate|]. now injection H as <-. }
  destruct (Hinv earlier rep1 H1) as (e1 & Hc1 & ->).
  destruct (Hinv later rep2 H2) as (e2 & Hc2 & ->).
  apply collect_errors in Hc1, Hc2. simpl in Hc1, Hc2. subst e1 e2.
  assert (Hperm : Permutation (returned (earlier futures)) (returned (later futures))).
  { apply returned_perm. rewrite <- (Hp1 futures). apply Hp2. }
  assert (Hnd1 : NoDup (map r_port (returned (earlier futures)))).
  { eapply Permutation_NoDup; [|exact Hnd]. apply Permutation_map, returned_perm, Hp1. }
  destruct (aggregate_same_frame (length (select (num a) ls)) _ _
              (map task_error_line (raised (earlier futures)))
              (map task_error_line (raised (later futures))) Hperm Hnd1)
    as (Hdf & Hcounts & Hsucc & Hsum).
  repeat split; try assumption.
  cbn [aggregate errors]. apply Permutation_map, raised_perm.
  rewrite <- (Hp1 futures). apply Hp2.
Qed.

Lemma X9_witness :
  let rep1 := report_of (main Fleet.mixed_nets Fleet.started Fleet.in_order Fleet.cli
                           (Some Fleet.targets)) in
  let rep2 := report_of (main Fleet.mixed_nets Fleet.started Fleet.last_first Fleet.cli
                           (Some Fleet.targets)) in
  df rep1 = df rep2 /\ status_counts rep1 = status_counts rep2 /\
  success_count rep1 = success_count rep2 /\ summary rep1 = summary rep2 /\
  Permutation (errors rep1) (errors rep2).
Proof.
  cbv zeta.
  apply (X9_report_independent_of_completion_order Fleet.mixed_nets Fleet.started
           Fleet.in_order Fleet.last_first Fleet.cli Fleet.targets).
  - intros fs. apply Permutation_refl.
  - intros fs. apply Permutation_rev.
  - vm_compute. repeat constructor; simpl; intuition discriminate.
  - vm_compute. reflexivity.
  - vm_compute. reflexivity.
Defined.

(** ** Tasks that cannot raise *)

Lemma safe_ret {A} (a : A) : safe (ret a).
Proof. intros w. exact I. Qed.

Lemma safe_bind {A B} (m : M A) (k : A -> M B) :
  safe m -> (forall a, safe (k a)) -> safe (bind m k).
Proof.
  intros Hm Hk w. unfold bind. specialize (Hm w).
  destruct (m w) as [[a|e] w']; simpl in *; [apply Hk | exact Hm].
Qed.

Lemma safe_getitem {A} (key : string) (entry : option A) : safe (getitem key entry).
Proof. destruct entry; intros w; [exact I | reflexivity]. Qed.

Lemma never_raises_ret {A} (a : A) : never_raises (ret a).
Proof. intros w. now exists a. Qed.

Lemma never_raises_bind {A B} (m : M A) (k : A -> M B) :
  never_raises m -> (forall a, never_raises (k a)) -> never_raises (bind m k).
Proof.
  intros Hm Hk w. unfold bind. destruct (Hm w) as [a Ha].
  destruct (m w) as [[a'|e] w']; simpl in Ha; [|discriminate].
  apply Hk.
Qed.

Section SafeFacts.

Variable net : network.
Hypothesis net_safe : raises_exceptions_only net.

Lemma safe_requests_get (u : string) (via : option string) (t : Z) :
  safe (requests_get net u via t).
Proof.
  intros w. unfold requests_get. cbn [fst].
  specialize (net_safe (requests_sent w) (Request u via t)).
  destruct (answer (net (requests_sent w) (Request u via t))); [exact I | exact net_safe].
Qed.

(** The body of a response the network gave. *)
Lemma safe_json (u : string) (via : option string) (t : Z) (k : response -> M (record * bool)) :
  (forall resp, (match json resp with
                 | Raise e => isinstance e Classes.Exception = true
                 | Ok _ => True
                 end) -> safe (k resp)) ->
  safe (bind (requests_get net u via t) k).
Proof.
  intros Hk w. unfold bind, requests_get.
  specialize (net_safe (requests_sent w) (Request u via t)).
  destruct (answer (net (requests_sent w) (Request u via t))) as [resp|e];
    [|exact net_safe].
  apply Hk. exact net_safe.
Qed.

Lemma safe_try_body (result : record) (proxy_url : string) :
  safe (try_body net result proxy_url).
Proof.
  unfold try_body.
  apply safe_bind; [intros w; exact I | intros start_time].
  apply safe_json. intros response Hjson.
  apply safe_bind; [intros w; exact I | intros now].
  destruct (status_code response =? 200)%Z; [|apply safe_ret].
  apply safe_bind.
  { intros w. destruct (json response); [exact I | exact Hjson]. }
  intros data. apply safe_bind; [apply safe_getitem | intros ip_address].
  apply safe_json. intros geo_response Hgeo.
  apply safe_bind.
  - destruct (status_code geo_response =? 200)%Z; [|apply safe_ret].
    apply safe_bind; [|intros geo_data; apply safe_ret].
    intros w. destruct (json geo_response); [exact I | exact Hgeo].
  - intros [[country city] org]. apply safe_ret.
Qed.

Lemma except_clauses_return (result : record) (e : exn) (w : world) :
  isinstance e Classes.Exception = true ->
  exists x, fst (except_clauses result e w) = Ok x.
Proof.
  intros He. unfold except_clauses.
  destruct (isinstance e Classes.Timeout); [eexists; reflexivity|].
  destruct (isinstance e Classes.ProxyError); [eexists; reflexivity|].
  destruct (isinstance e Classes.RequestException); [eexists; reflexivity|].
  rewrite He. eexists; reflexivity.
Qed.

Lemma attempt_never_raises (info : proxy_info) :
  well_formed info -> never_raises (test_single_proxy_attempt net info).
Proof.
  intros (name & port & proxy_name & ->) w. rewrite attempt_unfold. unfold try_except.
  pose proof (safe_try_body (initial_result name proxy_name port (proxy_url_of port))
                (proxy_url_of port) (entered w)) as Hsafe.
  destruct (try_body net _ _ (entered w)) as [[x|e] w']; cbn [fst] in Hsafe.
  - now exists x.
  - now apply except_clauses_return.
Qed.

Lemma while_retry_never_raises (info : proxy_info) (retry_count : nat) :
  well_formed info -> never_raises (while_retry net info retry_count).
Proof.
  apply (while_retry_elim net
           (fun info retry_count m => well_formed info -> never_raises m)).
  - clear info retry_count. intros info retry_count Hlt IH _ Hwf. cbv zeta in *.
    pose proof Hwf as (name0 & port0 & proxy0 & Hinfo).
    apply never_raises_bind; [intros w; now exists tt | intros u1].
    apply never_raises_bind;
      [rewrite Hinfo; apply never_raises_ret | intros name].
    apply never_raises_bind;
      [rewrite Hinfo; apply never_raises_ret | intros port].
    apply never_raises_bind; [intros w; now exists tt | intros u2].
    apply never_raises_bind; [now apply attempt_never_raises|].
    intros [retry_result [|]].
    + apply never_raises_ret.
    + intros w. apply (IH u1 name port u2 (retry_result, false) retry_result false w Hwf).
  - intros info' retry_count' _ _ _. apply never_raises_ret.
Qed.

Lemma test_proxy_never_raises (info : proxy_info) :
  well_formed info -> never_raises (test_proxy net info).
Proof.
  intros Hwf. unfold test_proxy.
  apply never_raises_bind; [now apply attempt_never_raises|].
  intros [result [|]]; [apply never_raises_ret|].
  apply never_raises_bind; [now apply while_retry_never_raises|].
  intros [r|]; apply never_raises_ret.
Qed.

End SafeFacts.

Lemma record_of_listener (info : proxy_info) (r : record) :
  record_of info r -> info = listener_of r.
Proof.
  destruct info as [n p x]. unfold record_of, listener_of. simpl.
  intros (-> & -> & ->). reflexivity.
Qed.

Lemma submit_all_return (nets : nat -> network) (started : nat -> Q)
      (proxies : list proxy_info) :
  (forall i, raises_exceptions_only (nets i)) ->
  Forall well_formed proxies ->
  forall first,
    raised (submit nets started first proxies) = [] /\
    map listener_of (returned (submit nets started first proxies)) = proxies.
Proof.
  intros Hnets Hwf. induction Hwf as [|p rest Hp Hrest IH]; intros first; simpl.
  - split; reflexivity.
  - destruct (test_proxy_never_raises (nets first) (Hnets first) p Hp
                (World (started first) 0 0 [])) as [r Hr].
    destruct (test_proxy (nets first) p (World (started first) 0 0 [])) as [o w'] eqn:E.
    simpl in Hr. subst o. cbn [fst raised returned map].
    destruct (IH (S first)) as [-> ->]. split; [reflexivity|].
    f_equal. symmetry. apply record_of_listener.
    exact (test_proxy_keeps_target _ _ _ _ _ E).
Qed.

(** X10: when every selected listener entry has its name, port and proxy
    keys and the network raises nothing but [Exception]s, a run with at least
    one target and a positive number of threads always reaches the report,
    prints nothing on stderr, and its frame holds exactly one record for each
    target: the listener entries read back from the rows are the targets, up
    to order. *)
Theorem X10_well_formed_targets_all_reported
        (nets : nat -> network) (started : nat -> Q)
        (as_completed : list future -> list future)
        (a : args) (ls : list proxy_info) :
  (forall fs, Permutation fs (as_completed fs)) ->
  (0 < threads a)%Z ->
  (forall i, raises_exceptions_only (nets i)) ->
  Forall well_formed (select (num a) ls) ->
  select (num a) ls <> [] ->
  exists rep,
    main nets started as_completed a (Some ls) = Finished rep /\
    errors rep = [] /\
    length (df rep) = length (select (num a) ls) /\
    Permutation (map (fun row => listener_of (snd row)) (df rep)) (select (num a) ls).
Proof.
  intros Hperm Hthreads Hnets Hwf Hne.
  set (targets := select (num a) ls) in *.
  destruct (submit_all_return nets started targets Hnets Hwf 0) as [Hraised Hret].
  set (futures := submit nets started 0 targets) in *.
  assert (Hsome : returned futures <> []).
  { intros Hnone. rewrite Hnone in Hret. simpl in Hret. now apply Hne. }
  assert (Hall : Forall (fun e => isinstance e Classes.Exception = true) (raised futures))
    by (rewrite Hraised; constructor).
  destruct (main_reaches_report nets started as_completed a ls Hperm Hthreads Hall Hsome)
    as [rep Hrep].
  exists rep. split; [exact Hrep|].
  destruct (run_records nets started as_completed a ls rep Hperm Hrep)
    as (Hrec & Hcount & Herr).
  fold targets in Hrec, Hcount, Herr. fold futures in Hrec, Hcount, Herr.
  rewrite Hraised in Hcount, Herr. cbn [length] in Hcount, Herr.
  rewrite Nat.add_0_r in Hcount.
  split; [now apply length_zero_iff_nil|]. split; [exact Hcount|].
  rewrite <- Hret. rewrite <- (map_map snd listener_of).
  now apply Permutation_map.
Qed.

Lemma X10_witness :
  exists rep,
    main Fleet.mixed_nets Fleet.started Fleet.last_first Fleet.cli (Some Fleet.targets)
    = Finished rep /\
    errors rep = [] /\
    length (df rep) = length (select (num Fleet.cli) Fleet.targets) /\
    Permutation (map (fun row => listener_of (snd row)) (df rep))
      (select (num Fleet.cli) Fleet.targets).
Proof.
  apply (X10_well_formed_targets_all_reported Fleet.mixed_nets Fleet.started
           Fleet.last_first Fleet.cli Fleet.targets).
  - intros fs. apply Permutation_rev.
  - reflexivity.
  - intros i k q. destruct i as [|[|[|i]]]; destruct k as [|[|k]]; simpl; trivial.
  - vm_compute. repeat constructor; repeat eexists.
  - discriminate.
Defined.

(** ** Base statuses *)

Lemma split_head_plain (status : string) :
  contains " (" status = false -> split_head " (" status = status.
Proof.
  induction status as [|c rest IH]; [reflexivity|].
  cbn [contains]. intros Hc. apply orb_false_iff in Hc as [Hhere Hrest].
  cbn [split_head]. rewrite Hhere. f_equal. now apply IH.
Qed.

Lemma split_head_clean (status : string) :
  contains " (" (split_head " (" status) = false.
Proof.
  induction status as [|c rest IH]; [reflexivity|].
  cbn [split_head].
  destruct (String.prefix " (" (String c rest)) eqn:Hhere; [reflexivity|].
  cbn [contains]. rewrite IH, orb_false_r.
  rewrite prefix_cons in Hhere |- *.
  destruct (ascii_dec " " c); [|reflexivity].
  destruct rest as [|d rest']; [reflexivity|].
  rewrite prefix_cons, prefix_empty in Hhere.
  cbn [split_head].
  destruct (String.prefix " (" (String d rest')); [reflexivity|].
  rewrite prefix_cons. destruct (ascii_dec "(" d); [discriminate | reflexivity].
Qed.

(** X11: the label under which a status is tallied never contains " (";
    a status without " (" is its own label, and taking the label of a label
    changes nothing. *)
Theorem X11_base_status_is_clean (status : string) :
  contains " (" (base_status status) = false /\
  (contains " (" status = false -> base_status status = status) /\
  base_status (base_status status) = base_status status.
Proof.
  unfold base_status. split; [apply split_head_clean|].
  split; [apply split_head_plain|].
  apply split_head_plain, split_head_clean.
Qed.

(** ** Reading the configuration in ping_proxies.py *)

(** X12: [main] gets past its first lines with the listeners [v] exactly
    when the configuration document is a mapping that holds [v] under
    'listeners'.  A file that cannot be opened or parsed ends the run with
    status 1 and one line on stderr; a document that is null (an empty file), a
    boolean or an integer is not caught by the test for 'listeners' and ends
    the run with an uncaught [TypeError]. *)
Theorem X12_only_a_mapping_with_listeners_is_read (file : file_read) :
  (forall v,
      read_listeners file = Value v <->
      exists entries, file = Loaded (YDict entries) /\
                      dict_find entries "listeners" = Some v) /\
  (forall e, (file = OpenFails e \/ file = LoadFails e) ->
             isinstance e Classes.Exception = true ->
             read_listeners file = Exit 1 ["读取配置文件时出错: " ++ exn_str e]) /\
  (forall doc, file = Loaded doc -> plain_scalar doc ->
               exists e, read_listeners file = Crash e /\
                         exn_type e = Builtins.TypeError).
Proof.
  split; [|split].
  - intros v. split.
    + unfold read_listeners, load_config.
      destruct file as [e|e|doc]; try (destruct (isinstance e Classes.Exception); discriminate).
      destruct doc as [| b | z | s | items | entries]; cbn [py_contains py_subscript];
        try discriminate.
      * destruct (contains "listeners" s); discriminate.
      * destruct (existsb _ items); discriminate.
      * destruct (dict_find entries "listeners") as [x|] eqn:Hfind; [|discriminate].
        intros [= <-]. now exists entries.
    + intros (entries & -> & Hfind). unfold read_listeners, load_config.
      cbn [py_contains py_subscript]. now rewrite Hfind.
  - intros e [-> | ->] He; unfold read_listeners, load_config; now rewrite He.
  - intros doc -> Hplain. unfold read_listeners, load_config.
    destruct doc; try contradiction; cbn [py_contains]; eexists; split; reflexivity.
Qed.

(** ** The converter *)

Lemma make_listeners_ok (start_port : Z) (proxies : list yaml) :
  forall i listeners,
    make_listeners start_port i proxies = Ok listeners <->
    exists names, proxy_names proxies = Some names /\
                  listeners = listeners_for start_port i names.
Proof.
  induction proxies as [|proxy rest IH]; intros i listeners;
    cbn [make_listeners proxy_names].
  - split.
    + intros [= <-]. now exists [].
    + intros (names & [= <-] & ->). reflexivity.
  - destruct proxy as [| b | z | s | items | entries];
      cbn [py_subscript proxy_name_of];
      try (split; [discriminate | intros (names & Hn & _); discriminate]).
    destruct (dict_find entries "name") as [name|];
      [|split; [discriminate | intros (names & Hn & _); discriminate]].
    destruct (make_listeners start_port (S i) rest) as [ls|e] eqn:Hrest.
    + destruct (proj1 (IH (S i) ls) Hrest) as (names & Hnames & ->).
      rewrite Hnames. split.
      * intros [= <-]. now exists (name :: names).
      * intros (names' & [= <-] & ->). reflexivity.
    + split; [discriminate|].
      intros (names' & Hn & _).
      destruct (proxy_names rest) as [names|] eqn:Hnames; [|discriminate].
      assert (Hok : make_listeners start_port (S i) rest
                    = Ok (listeners_for start_port (S i) names))
        by (apply IH; now exists names).
      rewrite Hok in Hrest. discriminate.
Qed.

Ltac io_step :=
  unfold convert_to_socks_proxies, read_yaml, io_bind, io_lift, io_ret, io_raise,
    print_out, print_err.

(** What the converter does with a loaded document, by cases. *)
Lemma convert_result (input_file : string) (file : file_read) (start_port : Z)
      (c : console) :
  fst (convert_to_socks_proxies input_file file start_port c)
  = match file with
    | OpenFails e | LoadFails e => Raise e
    | Loaded yaml_data =>
        if negb (truthy yaml_data) then
          Raise (Raised.value_error "YAML 文件为空或格式错误")
        else
          match py_contains "proxies" yaml_data with
          | Raise e => Raise e
          | Ok false => Raise (Raised.value_error "无效的 Clash 配置文件，缺少 proxies 部分")
          | Ok true =>
              match py_subscript yaml_data "proxies" with
              | Raise e => Raise e
              | Ok (YList items) =>
                  match make_listeners start_port 0 items with
                  | Raise e => Raise e
                  | Ok listeners => Ok (SocksConfig true dns_settings listeners items)
                  end
              | Ok _ => Raise (Raised.value_error "proxies 部分格式错误，应该是一个列表")
              end
          end
    end.
Proof.
  io_step. destruct file as [e|e|doc]; cbn [fst].
  - destruct (isinstance e Classes.Exception); reflexivity.
  - destruct (isinstance e Classes.Exception); reflexivity.
  - destruct (negb (truthy doc)); [reflexivity|].
    destruct (py_contains "proxies" doc) as [[|]|e]; try reflexivity.
    destruct (py_subscript doc "proxies") as [[| b | z | s | items | entries]|e];
      try reflexivity.
    destruct (make_listeners start_port 0 items); reflexivity.
Qed.

(** What a configuration the converter returned was made from. *)
Lemma conversion_accepts
      (input_file : string) (file : file_read) (start_port : Z) (c : console)
      (config : socks_config) :
  fst (convert_to_socks_proxies input_file file start_port c) = Ok config ->
  exists entries items names,
    file = Loaded (YDict entries) /\
    dict_find entries "proxies" = Some (YList items) /\
    proxy_names items = Some names /\
    config = SocksConfig true dns_settings (listeners_for start_port 0 names) items.
Proof.
  rewrite convert_result.
  destruct file as [e|e|doc]; try discriminate.
  destruct (negb (truthy doc)); [discriminate|].
  destruct doc as [| b | z | s | items | entries]; cbn [py_contains py_subscript];
    try discriminate.
  - destruct (contains "proxies" s); discriminate.
  - destruct (existsb _ items); discriminate.
  - destruct (dict_find entries "proxies") as [[| b | z | s | items | es]|] eqn:Hfind;
      try discriminate.
    destruct (make_listeners start_port 0 items) as [ls|e] eqn:Hls; [|discriminate].
    intros [= <-]. apply make_listeners_ok in Hls as (names & Hnames & ->).
    now exists entries, items, names.
Qed.

(** X13: the converter returns a configuration exactly when the input
    file loads as a mapping whose 'proxies' is a list of mappings that each
    have a 'name'; the configuration then holds [allow-lan: true], the fixed
    DNS settings, the proxies as loaded, and one listener per proxy, in the
    order of the proxies. *)
Theorem X13_conversion_accepts
        (input_file : string) (file : file_read) (start_port : Z) (c : console)
        (config : socks_config) :
  fst (convert_to_socks_proxies input_file file start_port c) = Ok config <->
  exists entries items names,
    file = Loaded (YDict entries) /\
    dict_find entries "proxies" = Some (YList items) /\
    proxy_names items = Some names /\
    config = SocksConfig true dns_settings (listeners_for start_port 0 names) items.
Proof.
  split; [apply conversion_accepts|].
  intros (entries & items & names & -> & Hfind & Hnames & ->).
  rewrite convert_result.
  assert (Hls : make_listeners start_port 0 items
                = Ok (listeners_for start_port 0 names))
    by (apply make_listeners_ok; now exists names).
  destruct entries as [|entry entries']; [discriminate|].
  cbn [truthy negb py_contains py_subscript]. rewrite Hfind, Hls. reflexivity.
Qed.

(** ** The listeners of a configuration *)

Lemma str_int_inj (a b : Z) : str_int a = str_int b -> a = b.
Proof.
  unfold str_int. intros H. apply DecimalZ.to_int_inj.
  assert (Hnn : forall z, Z.to_int z <> Decimal.Pos Decimal.Nil /\
                          Z.to_int z <> Decimal.Neg Decimal.Nil).
  { intros [|p|p]; cbn [Z.to_int]; split; try discriminate;
      intros [= Hp]; now apply DecimalPos.Unsigned.to_uint_nonnil in Hp. }
  destruct (Hnn a) as [Ha1 Ha2], (Hnn b) as [Hb1 Hb2].
  pose proof (NilZero.isi _ Ha1 Ha2) as Ia. pose proof (NilZero.isi _ Hb1 Hb2) as Ib.
  rewrite H in Ia. rewrite Ia in Ib. now injection Ib.
Qed.

Lemma listeners_for_length (start_port : Z) (names : list yaml) :
  forall i, length (listeners_for start_port i names) = length names.
Proof. induction names as [|n rest IH]; intros i; simpl; [|rewrite IH]; reflexivity. Qed.

Lemma listeners_for_nth (start_port : Z) (names : list yaml) :
  forall i k l,
    nth_error (listeners_for start_port i names) k = Some l ->
    exists name,
      nth_error names k = Some name /\
      l = Listener ("mixed" ++ str_nat (i + k)) "mixed"
            (start_port + Z.of_nat (i + k)) name.
Proof.
  induction names as [|n rest IH]; intros i k l; simpl.
  - destruct k; discriminate.
  - destruct k as [|k]; simpl.
    + intros [= <-]. exists n. now rewrite Nat.add_0_r.
    + intros H. apply IH in H as (name & Hn & ->). exists name.
      now rewrite Nat.add_succ_r.
Qed.

Lemma proxy_names_nth (proxies : list yaml) :
  forall names k name,
    proxy_names proxies = Some names -> nth_error names k = Some name ->
    exists proxy, nth_error proxies k = Some proxy /\ proxy_name_of proxy = Some name.
Proof.
  induction proxies as [|p rest IH]; intros names k name; simpl.
  - intros [= <-]. destruct k; discriminate.
  - destruct (proxy_name_of p) as [n|] eqn:Hp; [|discriminate].
    destruct (proxy_names rest) as [ns|]; [|discriminate].
    intros [= <-]. destruct k as [|k]; simpl.
    + intros [= <-]. now exists p.
    + intros H. now apply (IH ns k name eq_refl) in H.
Qed.

Lemma proxy_names_length (proxies : list yaml) :
  forall names, proxy_names proxies = Some names -> length names = length proxies.
Proof.
  induction proxies as [|p rest IH]; intros names; simpl.
  - now intros [= <-].
  - destruct (proxy_name_of p); [|discriminate].
    destruct (proxy_names rest) as [ns|]; [|discriminate].
    intros [= <-]. simpl. now rewrite (IH ns eq_refl).
Qed.

(** X14: in a configuration the converter returns there is one listener
    per proxy; the k-th (from 0) is named mixed<k>, has type mixed, listens on
    start_port + k and carries the 'name' of the k-th proxy.  Hence the ports
    are the consecutive numbers from start_port on, strictly increasing along
    the list, and no two listeners share a port or a name. *)
Theorem X14_listeners_number_the_proxies
        (input_file : string) (file : file_read) (start_port : Z) (c : console)
        (config : socks_config) :
  fst (convert_to_socks_proxies input_file file start_port c) = Ok config ->
  length (cfg_listeners config) = length (cfg_proxies config) /\
  (forall k l,
      nth_error (cfg_listeners config) k = Some l ->
      l_name l = "mixed" ++ str_nat k /\ l_type l = "mixed" /\
      l_port l = (start_port + Z.of_nat k)%Z /\
      exists proxy, nth_error (cfg_proxies config) k = Some proxy /\
                    proxy_name_of proxy = Some (l_proxy l)) /\
  (forall j k lj lk,
      nth_error (cfg_listeners config) j = Some lj ->
      nth_error (cfg_listeners config) k = Some lk ->
      j < k -> (l_port lj < l_port lk)%Z /\ l_name lj <> l_name lk).
Proof.
  intros H. apply conversion_accepts in H as (entries & items & names & _ & _ & Hnames & ->).
  cbn [cfg_listeners cfg_proxies].
  assert (Hnth : forall k l,
             nth_error (listeners_for start_port 0 names) k = Some l ->
             l_name l = "mixed" ++ str_nat k /\ l_type l = "mixed" /\
             l_port l = (start_port + Z.of_nat k)%Z /\
             exists proxy, nth_error items k = Some proxy /\
                           proxy_name_of proxy = Some (l_proxy l)).
  { intros k l Hl. apply listeners_for_nth in Hl as (name & Hn & ->).
    cbn [l_name l_type l_port l_proxy plus]. repeat split.
    now apply (proxy_names_nth items names k name). }
  split; [|split; [exact Hnth|]].
  - rewrite listeners_for_length. now apply proxy_names_length.
  - intros j k lj lk Hj Hk Hlt.
    destruct (Hnth j lj Hj) as (Hnj & _ & Hpj & _).
    destruct (Hnth k lk Hk) as (Hnk & _ & Hpk & _).
    rewrite Hnj, Hnk, Hpj, Hpk. split; [lia|].
    intros Heq. injection Heq as Heq. unfold str_nat in Heq.
    apply str_int_inj in Heq. lia.
Qed.

Lemma X14_witness :
  length (cfg_listeners Clash.converted) = length (cfg_proxies Clash.converted) /\
  (forall k l,
      nth_error (cfg_listeners Clash.converted) k = Some l ->
      l_name l = "mixed" ++ str_nat k /\ l_type l = "mixed" /\
      l_port l = (42000 + Z.of_nat k)%Z /\
      exists proxy, nth_error (cfg_proxies Clash.converted) k = Some proxy /\
                    proxy_name_of proxy = Some (l_proxy l)) /\
  (forall j k lj lk,
      nth_error (cfg_listeners Clash.converted) j = Some lj ->
      nth_error (cfg_listeners Clash.converted) k = Some lk ->
      j < k -> (l_port lj < l_port lk)%Z /\ l_name lj <> l_name lk).
Proof.
  apply (X14_listeners_number_the_proxies "clash.yaml" Clash.file 42000 Clash.start).
  vm_compute. reflexivity.
Defined.

(** ** Runs of the converter *)






Section ConverterRuns.

Variable py_repr : yaml -> string.

Lemma print_listeners_out (listeners : list listener) (c : console) :
  print_listeners py_repr listeners c
  = (Ok tt, Console (out c ++ map (listener_line py_repr) listeners) (err c)).
Proof.
  revert c. induction listeners as [|l rest IH]; intros c; cbn [print_listeners map].
  - unfold io_ret. rewrite app_nil_r. now destruct c.
  - unfold io_bind, print_out. rewrite IH. cbn [out err].
    now rewrite <- app_assoc.
Qed.

Lemma report_conversion_out (a : convert_args) (config : socks_config) (c : console) :
  report_conversion py_repr a config c
  = (Ok tt,
     Console (out c
                ++ ["转换成功！配置文件已保存到 " ++ arg_output a;
                    "起始端口: " ++ str_int (arg_port a) ++ ", 结束端口: "
                      ++ str_int (arg_port a + Z.of_nat (length (cfg_proxies config)) - 1);
                    nl ++ "生成的监听器:"]
                ++ map (listener_line py_repr) (cfg_listeners config))
             (err c)).
Proof.
  unfold report_conversion, io_bind, print_out. rewrite print_listeners_out.
  cbn [out err]. rewrite <- !app_assoc. reflexivity.
Qed.

End ConverterRuns.



(** X16: on a run of the converter that ends with status 0, stdout closes
    with the line of the two ports, the heading and one line per listener in
    order; the end port printed, port + len(proxies) - 1, is the port of the
    last listener whenever there is one. *)
Theorem X16_converter_prints_the_listeners
        (py_repr : yaml -> string) (a : convert_args) (file : file_read)
        (write : file_write) (conv : conversion) :
  convert_main py_repr a file write = Value conv ->
  exit_status conv = 0%Z ->
  exists config head,
    output_after conv = Holds config /\
    out (streams conv)
    = (head
         ++ [("起始端口: " ++ str_int (arg_port a) ++ ", 结束端口: "
                ++ str_int (arg_port a + Z.of_nat (length (cfg_listeners config)) - 1))%string;
             (nl ++ "生成的监听器:")%string]
         ++ map (listener_line py_repr) (cfg_listeners config))%list /\
    (forall l, nth_error (cfg_listeners config) (length (cfg_listeners config) - 1) = Some l ->
               l_port l
               = (arg_port a + Z.of_nat (length (cfg_listeners config)) - 1)%Z).
Proof.
  unfold convert_main. fold (after_arguments a).
  destruct (convert_to_socks_proxies (arg_input a) file (arg_port a) (after_arguments a))
    as [[config|e] c] eqn:Hconv.
  - assert (Hfst : fst (convert_to_socks_proxies (arg_input a) file (arg_port a)
                          (after_arguments a)) = Ok config) by now rewrite Hconv.
    apply conversion_accepts in Hfst as (entries & items & names & _ & _ & Hnames & Hcfg).
    destruct write as [e|e|].
    + destruct (isinstance e Classes.Exception); [|discriminate].
      intros [= <-]. discriminate.
    + destruct (isinstance e Classes.Exception); [|discriminate].
      intros [= <-]. discriminate.
    + rewrite report_conversion_out. intros [= <-] _.
      cbn [output_after streams out err].
      assert (Hlen : length (cfg_proxies config) = length (cfg_listeners config)).
      { rewrite Hcfg. cbn [cfg_proxies cfg_listeners].
        rewrite listeners_for_length. symmetry. now apply proxy_names_length. }
      exists config.
      exists (out c ++ [("正在写入配置到文件: " ++ arg_output a)%string;
                        ("转换成功！配置文件已保存到 " ++ arg_output a)%string])%list.
      split; [reflexivity|]. split.
      * rewrite Hlen, <- !app_assoc. reflexivity.
      * intros l Hl. rewrite Hcfg in Hl |- *. cbn [cfg_listeners] in Hl |- *.
        pose proof Hl as Hl'.
        apply listeners_for_nth in Hl' as (name & _ & ->). cbn [l_port plus].
        assert (Hlt : length (listeners_for (arg_port a) 0 names) - 1
                      < length (listeners_for (arg_port a) 0 names))
          by (apply nth_error_Some; rewrite Hl; discriminate).
        lia.
  - destruct (isinstance e Classes.Exception); [|discriminate].
    intros [= <-]. discriminate.
Qed.

Lemma X16_witness :
  exists config head,
    output_after (Conversion 0
                    (snd (report_conversion Clash.repr Clash.cli Clash.converted
                            (Console (out (snd (convert_to_socks_proxies "clash.yaml"
                                                  Clash.file 42000
                                                  (after_arguments Clash.cli)))
                                        ++ ["正在写入配置到文件: config.yaml"]) [])))
                    (Holds Clash.converted)) = Holds config /\
    out (streams (Conversion 0
                    (snd (report_conversion Clash.repr Clash.cli Clash.converted
                            (Console (out (snd (convert_to_socks_proxies "clash.yaml"
                                                  Clash.file 42000
                                                  (after_arguments Clash.cli)))
                                        ++ ["正在写入配置到文件: config.yaml"]) [])))
                    (Holds Clash.converted)))
    = (head
         ++ [("起始端口: " ++ str_int (arg_port Clash.cli) ++ ", 结束端口: "
                ++ str_int (arg_port Clash.cli
                            + Z.of_nat (length (cfg_listeners config)) - 1))%string;
             (nl ++ "生成的监听器:")%string]
         ++ map (listener_line Clash.repr) (cfg_listeners config))%list /\
    (forall l, nth_error (cfg_listeners config) (length (cfg_listeners config) - 1) = Some l ->
               l_port l
               = (arg_port Clash.cli + Z.of_nat (length (cfg_listeners config)) - 1)%Z).
Proof.
  apply (X16_converter_prints_the_listeners Clash.repr Clash.cli Clash.file WriteOk).
  - vm_compute. reflexivity.
  - reflexivity.
Defined.

(** ** From the converter to the prober *)

Lemma as_proxy_info_listener (l : listener) :
  as_proxy_info (listener_yaml l) = listener_info l.
Proof.
  unfold as_proxy_info, listener_yaml, listener_info, string_entry, int_entry.
  cbn [dict_find String.eqb Ascii.eqb Bool.eqb].
  destruct (l_proxy l); reflexivity.
Qed.

Lemma as_listeners_config (listeners : list listener) :
  as_listeners (map listener_yaml listeners) = typed_listeners listeners.
Proof.
  induction listeners as [|l rest IH]; [reflexivity|].
  cbn [map as_listeners typed_listeners]. now rewrite as_proxy_info_listener, IH.
Qed.

Lemma main_from_converted
      (nets : nat -> network) (started : nat -> Q)
      (as_completed : list future -> list future)
      (a : args) (config : socks_config) (typed : list proxy_info) :
  typed_listeners (cfg_listeners config) = Some typed ->
  main_from_file nets started as_completed a (Loaded (config_yaml config))
  = Some (main nets started as_completed a (Some typed)).
Proof.
  intros Htyped. unfold main_from_file.
  change (read_listeners (Loaded (config_yaml config)))
    with (@Value yaml (YList (map listener_yaml (cfg_listeners config)))).
  cbv beta iota. now rewrite as_listeners_config, Htyped.
Qed.

Lemma typed_listeners_ports (start_port : Z) (names : list yaml) :
  forall i typed,
    typed_listeners (listeners_for start_port i names) = Some typed ->
    Forall well_formed typed /\
    StronglySorted Z.lt (map target_port typed) /\
    Forall (fun p => (start_port + Z.of_nat i <= p)%Z) (map target_port typed).
Proof.
  induction names as [|name rest IH]; intros i typed; cbn [listeners_for typed_listeners].
  - intros [= <-]. repeat constructor.
  - unfold listener_info at 1. cbn [l_proxy l_name l_port].
    destruct name as [| b | z | s | items | entries]; try discriminate.
    destruct (typed_listeners (listeners_for start_port (S i) rest)) as [infos|] eqn:Hrest;
      [|discriminate].
    intros [= <-]. destruct (IH (S i) infos Hrest) as (Hwf & Hsorted & Hlow).
    cbn [map target_port listener_port]. repeat split.
    + constructor; [repeat eexists | exact Hwf].
    + constructor; [exact Hsorted|].
      eapply Forall_impl; [|exact Hlow]. cbv beta. intros p Hp. lia.
    + constructor; [lia|].
      eapply Forall_impl; [|exact Hlow]. cbv beta. intros p Hp. lia.
Qed.

Lemma sorted_prefix {A} (R : A -> A -> Prop) (l1 l2 : list A) :
  StronglySorted R (l1 ++ l2) -> StronglySorted R l1.
Proof.
  induction l1 as [|x rest IH]; simpl; intros H; [constructor|].
  inversion H as [|? ? Hs Hall]; subst. constructor; [now apply IH|].
  apply Forall_app in Hall. tauto.
Qed.

Lemma increasing_nodup (ports : list Z) : StronglySorted Z.lt ports -> NoDup ports.
Proof.
  induction 1 as [|p rest Hs IH Hall]; constructor; [|exact IH].
  intros Hin. rewrite Forall_forall in Hall. specialize (Hall p Hin). lia.
Qed.

Lemma increasing_ports_ascend (rows : list record) :
  StronglySorted Z.lt (map r_port rows) -> ports_ascend rows.
Proof.
  unfold ports_ascend. induction rows as [|r rest IH]; simpl; intros H; [constructor|].
  inversion H as [|? ? Hs Hall]; subst. constructor; [now apply IH|].
  rewrite Forall_map in Hall. eapply Forall_impl; [|exact Hall]. cbv beta. intros x Hx. lia.
Qed.

Lemma map_pair {A B C} (f : A -> B) (g : A -> C) (l : list A) :
  map (fun x => (f x, g x)) l = combine (map f l) (map g l).
Proof. induction l as [|x rest IH]; simpl; [|rewrite IH]; reflexivity. Qed.

(** X17: a configuration the converter returned, whose proxy names are
    strings and which has at least one listener, is probed completely and
    reported in its own order: with the written document read back by
    ping_proxies.py, a positive thread count and a network that raises nothing
    but [Exception]s, the run reaches the report, prints no error, and the
    k-th row of the frame has rank k and is the record of the k-th selected
    listener, whatever order the probes complete in. *)
Theorem X17_converted_listeners_are_reported_in_order
        (nets : nat -> network) (started : nat -> Q)
        (as_completed : list future -> list future) (a : args)
        (input_file : string) (file : file_read) (start_port : Z) (c : console)
        (config : socks_config) (typed : list proxy_info) :
  fst (convert_to_socks_proxies input_file file start_port c) = Ok config ->
  typed_listeners (cfg_listeners config) = Some typed ->
  typed <> [] ->
  (forall fs, Permutation fs (as_completed fs)) ->
  (0 < threads a)%Z ->
  (forall i, raises_exceptions_only (nets i)) ->
  exists rep,
    main_from_file nets started as_completed a (Loaded (config_yaml config))
    = Some (Finished rep) /\
    errors rep = [] /\
    map (fun row => (fst row, listener_of (snd row))) (df rep)
    = combine (seq 1 (length (select (num a) typed))) (select (num a) typed).
Proof.
  intros Hconv Htyped Hne Hperm Hthreads Hnets.
  rewrite (main_from_converted nets started as_completed a config typed Htyped).
  apply conversion_accepts in Hconv as (entries & items & names & _ & _ & _ & ->).
  cbn [cfg_listeners] in Htyped.
  destruct (typed_listeners_ports start_port names 0 typed Htyped) as (Hwf & Hsorted & _).
  set (targets := select (num a) typed).
  pose proof (select_eq (num a) typed) as Hsel.
  destruct (select_rest (num a) typed) as (rest & Hrest). fold targets in Hsel, Hrest.
  assert (Hwf' : Forall well_formed targets).
  { rewrite Hrest in Hwf. apply Forall_app in Hwf. tauto. }
  assert (Hsorted' : StronglySorted Z.lt (map target_port targets)).
  { rewrite Hrest, map_app in Hsorted. now apply sorted_prefix in Hsorted. }
  assert (Hne' : targets <> []).
  { rewrite Hsel. destruct (0 <? num a)%Z eqn:Hpos; [|exact Hne].
    destruct typed as [|t ts]; [contradiction|].
    apply Z.ltb_lt in Hpos.
    destruct (Z.to_nat (num a)) as [|n] eqn:Hn; [lia | discriminate]. }
  destruct (submit_all_return nets started targets Hnets Hwf' 0) as [Hraised Hret].
  set (futures := submit nets started 0 targets) in *.
  assert (Hsome : returned futures <> []).
  { intros Hnone. rewrite Hnone in Hret. simpl in Hret. now apply Hne'. }
  assert (Hall : Forall (fun e => isinstance e Classes.Exception = true) (raised futures))
    by (rewrite Hraised; constructor).
  destruct (main_reaches_report nets started as_completed a typed Hperm Hthreads Hall Hsome)
    as [rep Hrep].
  exists rep. split; [now rewrite Hrep|].
  destruct (run_records nets started as_completed a typed rep Hperm Hrep)
    as (Hrec & _ & Herr).
  fold targets in Hrec, Herr. fold futures in Hrec, Herr.
  rewrite Hraised in Herr. cbn [length] in Herr.
  split; [now apply length_zero_iff_nil|].
  destruct (main_finished nets started as_completed a (Some typed) rep Hrep)
    as (ls' & stderr & [= <-] & _ & _ & Hagg).
  assert (Hports : map r_port (returned futures) = map target_port targets).
  { rewrite <- Hret, map_map. reflexivity. }
  assert (Hrecords : map snd (df rep) = returned futures).
  { apply ports_ascend_unique.
    - exact Hrec.
    - eapply Permutation_NoDup; [apply Permutation_map; symmetry; exact Hrec|].
      rewrite Hports. now apply increasing_nodup.
    - apply ascending_ports. rewrite Hagg. apply aggregate_ascending.
    - apply increasing_ports_ascend. now rewrite Hports. }
  assert (Hlen : length (df rep) = length targets).
  { transitivity (length (map snd (df rep))); [symmetry; apply length_map|].
    rewrite Hrecords, <- Hret. symmetry. apply length_map. }
  assert (Hranks : map fst (df rep) = seq 1 (length targets)).
  { rewrite <- Hlen, Hagg. apply aggregate_ranks. }
  rewrite (map_pair fst (fun row => listener_of (snd row))).
  rewrite Hranks. rewrite <- (map_map snd listener_of), Hrecords, Hret. reflexivity.
Qed.

Lemma X17_witness :
  exists rep,
    main_from_file Fleet.mixed_nets Fleet.started Fleet.last_first Fleet.cli
      (Loaded (config_yaml Clash.converted))
    = Some (Finished rep) /\
    errors rep = [] /\
    map (fun row => (fst row, listener_of (snd row))) (df rep)
    = combine (seq 1 (length (select (num Fleet.cli) Pipeline.typed)))
        (select (num Fleet.cli) Pipeline.typed).
Proof.
  apply (X17_converted_listeners_are_reported_in_order Fleet.mixed_nets Fleet.started
           Fleet.last_first Fleet.cli "clash.yaml" Clash.file 42000 Clash.start
           Clash.converted Pipeline.typed).
  - vm_compute. reflexivity.
  - reflexivity.
  - discriminate.
  - intros fs. apply Permutation_rev.
  - reflexivity.
  - intros i k q. destruct i as [|[|[|i]]]; destruct k as [|[|k]]; simpl; trivial.
Defined.

(** X18: what the converter rejects, and how.  A loaded document that is
    falsy (null, false, 0, an empty string, list or mapping) raises
    [ValueError] "YAML 文件为空或格式错误"; a non-empty mapping without
    'proxies' raises [ValueError] "无效的 Clash 配置文件，缺少 proxies 部分"; a
    mapping whose 'proxies' is not a list raises [ValueError]
    "proxies 部分格式错误，应该是一个列表"; and a list of proxies one of which
    is no mapping with a 'name' raises a [KeyError] or a [TypeError]. *)
Theorem X18_converter_rejections
        (input_file : string) (doc : yaml) (start_port : Z) (c : console) :
  let result := fst (convert_to_socks_proxies input_file (Loaded doc) start_port c) in
  (truthy doc = false ->
   result = Raise (Raised.value_error "YAML 文件为空或格式错误")) /\
  (forall entries,
      doc = YDict entries -> entries <> [] -> dict_find entries "proxies" = None ->
      result = Raise (Raised.value_error "无效的 Clash 配置文件，缺少 proxies 部分")) /\
  (forall entries v,
      doc = YDict entries -> dict_find entries "proxies" = Some v ->
      (forall items, v <> YList items) ->
      result = Raise (Raised.value_error "proxies 部分格式错误，应该是一个列表")) /\
  (forall entries items,
      doc = YDict entries -> dict_find entries "proxies" = Some (YList items) ->
      proxy_names items = None ->
      exists e, result = Raise e /\
                (exn_type e = Classes.KeyError \/ exn_type e = Builtins.TypeError)).
Proof.
  cbv zeta. rewrite convert_result. repeat split.
  - intros ->. reflexivity.
  - intros entries -> Hne Hfind. destruct entries as [|entry rest]; [contradiction|].
    cbn [truthy negb py_contains]. now rewrite Hfind.
  - intros entries v -> Hfind Hnolist.
    destruct entries as [|entry rest]; [discriminate|].
    cbn [truthy negb py_contains py_subscript]. rewrite Hfind.
    destruct v as [| b | z | s | items | es]; try reflexivity.
    now destruct (Hnolist items).
  - intros entries items -> Hfind Hnames.
    destruct entries as [|entry rest]; [discriminate|].
    cbn [truthy negb py_contains py_subscript]. rewrite Hfind.
    assert (Hraise : forall i, exists e,
               make_listeners start_port i items = Raise e /\
               (exn_type e = Classes.KeyError \/ exn_type e = Builtins.TypeError)).
    { clear Hfind. induction items as [|proxy more IH]; [discriminate|].
      intros i. cbn [make_listeners]. cbn [proxy_names] in Hnames.
      destruct proxy as [| b | z | s | its | es]; cbn [py_subscript proxy_name_of] in *;
        try (eexists; split; [reflexivity | right; reflexivity]).
      destruct (dict_find es "name") as [name|];
        [|eexists; split; [reflexivity | left; reflexivity]].
      destruct (proxy_names more) as [names|]; [discriminate|].
      destruct (IH eq_refl (S i)) as (e & -> & He). now exists e. }
    destruct (Hraise 0) as (e & -> & He). now exists e.
Qed.
